(** * A shallow embedding of the GRNVS transfer client
    (Transfer_Protocol/assignment4.py)

    The client frames every message as a netstring, keeps one residual byte
    buffer per channel inside the closure [receive_message_queue], and walks
    through a fixed handshake over a control and a data connection.

    Python values are modelled as follows:
    - [bytes] is a list of [Byte.byte];
    - [str] is a list of Unicode code points (each an [N]);
    - [int] is [Z]; [int()] refuses a text of more than
      [int_max_str_digits] digits, as the interpreter does by default;
    - exceptions, socket effects, [print] and [sys.exit] live in a small
      state-and-exception monad over an explicit [world]. *)

From Stdlib Require Import List ZArith NArith Lia Bool.
From Stdlib Require Import Strings.Byte Strings.String.
Import ListNotations.
Open Scope Z_scope.

(* ================================================================== *)
(** * Python values *)
(* ================================================================== *)

Module Py.

Definition bytes := list byte.
Definition codepoint := N.
Definition str := list codepoint.

(** Literals: [b "3:abc,"] is the bytes object [b'3:abc,'], [u "S"] the
    (ASCII) text ['S']. *)
Definition b (s : string) : bytes := list_byte_of_string s.
Definition u (s : string) : str := map Byte.to_N (list_byte_of_string s).

Definition bytes_eqb (x y : bytes) : bool :=
  if list_eq_dec Byte.byte_eq_dec x y then true else false.
Definition str_eqb (x y : str) : bool :=
  if list_eq_dec N.eq_dec x y then true else false.

Definition len {A} (l : list A) : Z := Z.of_nat (List.length l).

(** ** [x.split(sep)] and [x.split(sep, maxsplit)] for a one-element
    separator. [maxsplit = None] is Python's default (no limit). The result
    is never the empty list: [b''.split(b' ') == [b'']]. *)
Fixpoint split {A} (eqb : A -> A -> bool) (sep : A)
         (maxsplit : option nat) (l : list A) : list (list A) :=
  match l with
  | [] => [[]]
  | c :: r =>
      let cut :=
        eqb c sep && match maxsplit with Some O => false | _ => true end in
      if cut then
        [] :: split eqb sep (option_map Nat.pred maxsplit) r
      else
        match split eqb sep maxsplit r with
        | hd :: tl => (c :: hd) :: tl
        | [] => [[c]]
        end
  end.

Definition bsplit := @split byte Byte.eqb.
Definition ssplit := @split codepoint N.eqb.

(** Tuple unpacking [a, b = xs]: anything but two elements raises
    [ValueError]. *)
Definition unpack2 {A} (xs : list A) : option (A * A) :=
  match xs with
  | [x; y] => Some (x, y)
  | _ => None
  end.

(** ** [x.startswith(c)] for a one-byte prefix. *)
Definition startswith (c : byte) (l : bytes) : bool :=
  match l with
  | c0 :: _ => Byte.eqb c0 c
  | [] => false
  end.

(** ** Slices [l[lo:hi]] with step 1. A negative index counts from the end,
    and every index is clamped into [0, len]. *)
Definition clamp_index (n i : Z) : Z :=
  if i <? 0 then Z.max (i + n) 0 else Z.min i n.

Definition slice {A} (lo hi : option Z) (l : list A) : list A :=
  let n := len l in
  let lo' := match lo with None => 0 | Some i => clamp_index n i end in
  let hi' := match hi with None => n | Some i => clamp_index n i end in
  firstn (Z.to_nat (hi' - lo')) (skipn (Z.to_nat lo') l).

(** ** [int(x)] for a bytes object [x], base 10.

    The interpreter skips leading white space, reads an optional sign,
    refuses a leading underscore, reads decimal digits in which single
    underscores may separate digits, refuses more than
    [int_max_str_digits] digits, skips trailing white space and requires
    the end of the input. Anything else raises [ValueError] ([None]). *)
Definition is_space (c : byte) : bool :=
  let n := Byte.to_N c in
  ((9 <=? n) && (n <=? 13))%N || (n =? 32)%N.

Definition is_digit (c : byte) : bool :=
  let n := Byte.to_N c in ((48 <=? n) && (n <=? 57))%N.

Definition digit_val (c : byte) : Z := Z.of_N (Byte.to_N c) - 48.

Fixpoint lstrip (l : bytes) : bytes :=
  match l with
  | c :: r => if is_space c then lstrip r else l
  | [] => []
  end.

(** [scan_digits prev_us seen acc l] reads the run of digits and
    underscores at the head of [l]; [prev_us] tells that the last byte read
    was an underscore, [seen] that a digit was read. *)
Fixpoint scan_digits (prev_us seen : bool) (acc : Z) (l : bytes)
  : option (Z * bytes) :=
  let finish := if prev_us then None
                else if seen then Some (acc, l) else None in
  match l with
  | c :: r =>
      if is_digit c then scan_digits false true (10 * acc + digit_val c) r
      else if Byte.eqb c "_"%byte then
             if prev_us then None else scan_digits true seen acc r
      else finish
  | [] => finish
  end.

(** The number a run of decimal digits stands for. *)
Definition digits_value (l : bytes) : Z :=
  fold_left (fun acc c => 10 * acc + digit_val c) l 0.

(** The interpreter's default limit on the digits of a text that [int()]
    converts ([sys.int_info.default_max_str_digits]): more digits raise
    [ValueError]. The digits are counted over the run that is read, zeros
    at the front included and underscores left out. *)
Definition int_max_str_digits : nat := 4300.

Fixpoint digit_run (l : bytes) : nat :=
  match l with
  | c :: r =>
      if is_digit c then S (digit_run r)
      else if Byte.eqb c "_"%byte then digit_run r
      else O
  | [] => O
  end.

Definition int_of_bytes (l : bytes) : option Z :=
  let l1 := lstrip l in
  let '(neg, l2) :=
    match l1 with
    | c :: r =>
        if Byte.eqb c "+"%byte then (false, r)
        else if Byte.eqb c "-"%byte then (true, r)
        else (false, l1)
    | [] => (false, l1)
    end in
  if startswith "_"%byte l2 then None
  else
    match scan_digits false false 0 l2 with
    | Some (v, rest) =>
        if (int_max_str_digits <? digit_run l2)%nat then None
        else
          match lstrip rest with
          | [] => Some (if neg then - v else v)
          | _ :: _ => None
          end
    | None => None
    end.

(** ** [str(n)] for an integer: decimal digits, most significant first.
    The client applies it to the length of a bytes object, to a port and to
    a number [int()] has accepted, all of which stay below the limit that
    [str()] has on the digits it writes. *)
Definition digit_byte (d : N) : byte :=
  match d with
  | 0 => "0" | 1 => "1" | 2 => "2" | 3 => "3" | 4 => "4"
  | 5 => "5" | 6 => "6" | 7 => "7" | 8 => "8" | _ => "9"
  end%N%byte.

Fixpoint digits_acc (fuel : nat) (n : N) (acc : bytes) : bytes :=
  let acc' := digit_byte (n mod 10) :: acc in
  match fuel with
  | O => acc'
  | S fuel' =>
      if (n / 10 =? 0)%N then acc' else digits_acc fuel' (n / 10) acc'
  end.

(** [N.log2 n] is enough fuel: a division by ten removes at least one
    bit. *)
Definition digits_of_N (n : N) : bytes :=
  digits_acc (N.to_nat (N.log2 n)) n [].

Definition decimal (z : Z) : bytes :=
  if z <? 0 then "-"%byte :: digits_of_N (Z.to_N (- z))
  else digits_of_N (Z.to_N z).

Definition str_of_int (z : Z) : str := map Byte.to_N (decimal z).

(** ** UTF-8: [s.encode()] and [x.decode()] (strict error handling).

    [encode] raises [UnicodeEncodeError] ([None]) on a surrogate code point;
    [decode] raises [UnicodeDecodeError] ([None]) on an invalid start byte,
    a missing or invalid continuation byte, an overlong form, an encoded
    surrogate and anything above U+10FFFF. *)
Definition byte_of (n : N) : byte :=
  match Byte.of_N n with Some c => c | None => "000"%byte end.

Definition encode_cp (c : codepoint) : option bytes :=
  (if c <? 128 then Some [byte_of c]
   else if c <? 2048 then
     Some [byte_of (192 + c / 64); byte_of (128 + c mod 64)]
   else if c <? 65536 then
     if (55296 <=? c) && (c <=? 57343) then None
     else Some [byte_of (224 + c / 4096);
                byte_of (128 + (c / 64) mod 64);
                byte_of (128 + c mod 64)]
   else if c <? 1114112 then
     Some [byte_of (240 + c / 262144);
           byte_of (128 + (c / 4096) mod 64);
           byte_of (128 + (c / 64) mod 64);
           byte_of (128 + c mod 64)]
   else None)%N.

Fixpoint encode (s : str) : option bytes :=
  match s with
  | [] => Some []
  | c :: r =>
      match encode_cp c, encode r with
      | Some x, Some y => Some (x ++ y)
      | _, _ => None
      end
  end.

Definition is_ascii (c : byte) : bool := (Byte.to_N c <? 128)%N.

Definition in_range (lo hi : N) (c : byte) : bool :=
  let n := Byte.to_N c in ((lo <=? n) && (n <=? hi))%N.

Definition cont (c : byte) : N := (Byte.to_N c - 128)%N.

Fixpoint decode (l : bytes) : option str :=
  match l with
  | [] => Some []
  | b0 :: r0 =>
      let n0 := Byte.to_N b0 in
      if (n0 <? 128)%N then option_map (cons n0) (decode r0)
      else if in_range 194 223 b0 then
        match r0 with
        | b1 :: r1 =>
            if in_range 128 191 b1 then
              option_map (cons ((n0 - 192) * 64 + cont b1)%N) (decode r1)
            else None
        | _ => None
        end
      else if in_range 224 239 b0 then
        match r0 with
        | b1 :: b2 :: r2 =>
            let lo := if (n0 =? 224)%N then 160%N else 128%N in
            let hi := if (n0 =? 237)%N then 159%N else 191%N in
            if in_range lo hi b1 && in_range 128 191 b2 then
              option_map
                (cons ((n0 - 224) * 4096 + cont b1 * 64 + cont b2)%N)
                (decode r2)
            else None
        | _ => None
        end
      else if in_range 240 244 b0 then
        match r0 with
        | b1 :: b2 :: b3 :: r3 =>
            let lo := if (n0 =? 240)%N then 144%N else 128%N in
            let hi := if (n0 =? 244)%N then 143%N else 191%N in
            if in_range lo hi b1 && in_range 128 191 b2
               && in_range 128 191 b3 then
              option_map
                (cons ((n0 - 240) * 262144 + cont b1 * 4096
                       + cont b2 * 64 + cont b3)%N)
                (decode r3)
            else None
        | _ => None
        end
      else None
  end.

(** ** [repr(x)] of a bytes object, which is also what an f-string
    writes for it: [b'...'], with double quotes (byte [x22]) instead when the
    value holds a single quote and no double quote. The quote and the
    backslash (byte [x5c], code point 92) are escaped with a backslash; tab,
    newline and carriage return are written with the letters [t], [n] and
    [r] after a backslash; every other byte outside the printable ASCII
    range as a backslash, [x] (120) and two hexadecimal digits. *)
Definition hexdigit (d : N) : codepoint :=
  (if d <? 10 then 48 + d else 87 + d)%N.

Definition repr_byte (quote : byte) (c : byte) : str :=
  let n := Byte.to_N c in
  if Byte.eqb c quote || Byte.eqb c x5c then [92%N; n]
  else if (n =? 9)%N then [92%N; 116%N]
  else if (n =? 10)%N then [92%N; 110%N]
  else if (n =? 13)%N then [92%N; 114%N]
  else if (n <? 32)%N || (127 <=? n)%N then
    [92%N; 120%N; hexdigit (n / 16); hexdigit (n mod 16)]
  else [n].

Definition repr (x : bytes) : str :=
  let squotes := existsb (Byte.eqb "'"%byte) x in
  let dquotes := existsb (Byte.eqb x22) x in
  let quote := if squotes && negb dquotes then x22 else "'"%byte in
  u "b" ++ [Byte.to_N quote] ++ flat_map (repr_byte quote) x
    ++ [Byte.to_N quote].

End Py.

(* ================================================================== *)
(** * Effects: sockets, output, exceptions *)
(* ================================================================== *)

Module Eff.
Import Py.

(** The exceptions the client can meet. [SystemExit None] is [sys.exit()]
    without an argument. *)
Inductive exn :=
| SystemExit (code : option Z)
| ValueError
| IndexError
| UnicodeDecodeError
| UnicodeEncodeError
| UnboundLocalError
| OSError.

(** A call returns, raises, or never comes back ([accept] on the listener,
    which has no timeout). *)
Inductive result (A : Type) :=
| Ret (a : A)
| Raise (e : exn)
| Hang.
Arguments Ret {A} a.
Arguments Raise {A} e.
Arguments Hang {A}.

(** The three sockets of [run] and [build_data_channel]. *)
Inductive socket := control_channel | data_channel | server_socket.

(** What one [sock.recv(BUFFER_SIZE)] does: it returns a segment (the empty
    one at end of stream), raises [socket.timeout], or raises another
    [OSError]. Once the script of a socket is used up the peer is silent and
    every further [recv] times out. A segment longer than [BUFFER_SIZE] is
    delivered by several calls in a row, which accumulate the same bytes. *)
Inductive recv_event :=
| Segment (data : bytes)
| TimedOut
| ConnectionReset.

Record sock_state := {
  inbox : list recv_event;
  closed : bool;
  broken : bool   (* the connection is gone: [sendall] raises *)
}.

(** What an observer of the process sees: the bytes handed to [sendall],
    the lines printed on standard output (without their newline) and the
    sockets closed. Lines written to [sys.stderr] are a log and are left
    out. *)
Inductive event :=
| Sent (s : socket) (data : bytes)
| Printed (text : str)
| Closed (s : socket).

Record world := {
  control_state : sock_state;
  listener_state : sock_state;
  server_state : sock_state;
  control_netstrings : bytes;    (* closure variables of *)
  data_netstrings : bytes;       (* [receive_message_queue] *)
  trace : list event
}.

Definition state_of (s : socket) (w : world) : sock_state :=
  match s with
  | control_channel => control_state w
  | data_channel => listener_state w
  | server_socket => server_state w
  end.

Definition with_state (s : socket) (st : sock_state) (w : world) : world :=
  match s with
  | control_channel =>
      {| control_state := st; listener_state := listener_state w;
         server_state := server_state w;
         control_netstrings := control_netstrings w;
         data_netstrings := data_netstrings w; trace := trace w |}
  | data_channel =>
      {| control_state := control_state w; listener_state := st;
         server_state := server_state w;
         control_netstrings := control_netstrings w;
         data_netstrings := data_netstrings w; trace := trace w |}
  | server_socket =>
      {| control_state := control_state w;
         listener_state := listener_state w; server_state := st;
         control_netstrings := control_netstrings w;
         data_netstrings := data_netstrings w; trace := trace w |}
  end.

Definition log (e : event) (w : world) : world :=
  {| control_state := control_state w; listener_state := listener_state w;
     server_state := server_state w;
     control_netstrings := control_netstrings w;
     data_netstrings := data_netstrings w; trace := trace w ++ [e] |}.

(** [inner] picks the buffer by [channel == 0]: every other number is the
    data channel. *)
Definition residual (channel : Z) (w : world) : bytes :=
  if channel =? 0 then control_netstrings w else data_netstrings w.

Definition with_residual (channel : Z) (rest : bytes) (w : world) : world :=
  {| control_state := control_state w; listener_state := listener_state w;
     server_state := server_state w;
     control_netstrings :=
       if channel =? 0 then rest else control_netstrings w;
     data_netstrings :=
       if channel =? 0 then data_netstrings w else rest;
     trace := trace w |}.

(** ** The monad *)
Definition M (A : Type) := world -> result A * world.

Definition ret {A} (a : A) : M A := fun w => (Ret a, w).
Definition raise {A} (e : exn) : M A := fun w => (Raise e, w).
Definition bind {A B} (m : M A) (k : A -> M B) : M B :=
  fun w =>
    match m w with
    | (Ret a, w') => k a w'
    | (Raise e, w') => (Raise e, w')
    | (Hang, w') => (Hang, w')
    end.

Declare Scope py_scope.
Delimit Scope py_scope with py.
Notation "x <- m ;; k" := (bind m (fun x => k))
  (at level 61, m at next level, right associativity) : py_scope.
Notation "' pat <- m ;; k" :=
  (bind m (fun x => match x with pat => k end))
  (at level 61, pat pattern, m at next level, right associativity)
  : py_scope.
Notation "m ;; k" := (bind m (fun _ => k))
  (at level 61, right associativity) : py_scope.
Open Scope py_scope.

(** [x = e] where [e] may raise: [None] becomes the exception [e]. *)
Definition lift {A} (e : exn) (o : option A) : M A :=
  match o with Some a => ret a | None => raise e end.

(** [try: body / except: handler] with a bare [except], which catches every
    exception, [SystemExit] included. *)
Definition try_bare {A} (body handler : M A) : M A :=
  fun w =>
    match body w with
    | (Raise _, w') => handler w'
    | r => r
    end.

(** ** Socket and process primitives *)
Definition sendall (s : socket) (data : bytes) : M unit :=
  fun w =>
    let st := state_of s w in
    if closed st || broken st then (Raise OSError, w)
    else (Ret tt, log (Sent s data) w).

Definition close (s : socket) : M unit :=
  fun w =>
    let st := state_of s w in
    if closed st then (Ret tt, w)
    else (Ret tt,
          log (Closed s)
            (with_state s {| inbox := inbox st; closed := true;
                             broken := broken st |} w)).

Definition print (text : str) : M unit :=
  fun w => (Ret tt, log (Printed text) w).

Definition sys_exit {A} (code : option Z) : M A := raise (SystemExit code).

(** [with sock: body]: the socket is closed when the block is left, by a
    return or by an exception. *)
Definition with_socket {A} (s : socket) (body : M A) : M A :=
  fun w =>
    match body w with
    | (Hang, w') => (Hang, w')
    | (r, w') => (r, snd (close s w'))
    end.

(** Exit status of the process, from the outcome of [run]: an uncaught
    exception other than [SystemExit] ends the interpreter with status 1. *)
Definition exit_status {A} (r : result A) : option Z :=
  match r with
  | Ret _ => Some 0
  | Raise (SystemExit None) => Some 0
  | Raise (SystemExit (Some n)) => Some n
  | Raise _ => Some 1
  | Hang => None
  end.

End Eff.

(* ================================================================== *)
(** * The client *)
(* ================================================================== *)

Module Client.
Import Py Eff.
Open Scope py_scope.

(** What the operating system and the peer decide: whether [connect]
    succeeds, the port the listener is bound to, and the address of the
    host that connects to the listener (nobody: [accept] never returns). *)
Record env := {
  connect_ok : bool;
  dport : Z;
  peer : option str
}.

Section WithUnicodeDatabase.

(** The interpreter's Unicode database, consulted by [\d] and by [int()] on
    non-ASCII text only: the decimal digit value of a code point, and
    whether it is white space. *)
Variable unicode_decimal : codepoint -> option N.
Variable unicode_space : codepoint -> bool.

(** ** [string_to_int] *)

(** [\d] of a [str] pattern. *)
Definition re_digit (c : codepoint) : bool :=
  if (c <? 128)%N then ((48 <=? c) && (c <=? 57))%N
  else match unicode_decimal c with Some _ => true | None => false end.

Fixpoint skip_digits (s : str) : str :=
  match s with
  | c :: r => if re_digit c then skip_digits r else s
  | [] => []
  end.

(** [re.match(r'^[1-9]\d*$', string)]: without [re.MULTILINE], [$] matches
    at the end of the text and just before a newline that ends the text. *)
Definition re_match_pattern (string : str) : bool :=
  match string with
  | c :: r =>
      ((49 <=? c) && (c <=? 57))%N
      && match skip_digits r with
         | [] => true
         | [10%N] => true
         | _ => false
         end
  | [] => false
  end.

(** [int(string)] on text: each character is first turned into an ASCII
    byte (ASCII stays, white space becomes a blank, a decimal digit its
    ASCII digit, anything else is refused), then read as [int_of_bytes]
    reads it. *)
Fixpoint to_ascii (s : str) : option bytes :=
  match s with
  | [] => Some []
  | c :: r =>
      let out :=
        if (c <? 127)%N then Some (byte_of c)
        else if unicode_space c then Some " "%byte
        else option_map digit_byte (unicode_decimal c) in
      match out, to_ascii r with
      | Some x, Some y => Some (x :: y)
      | _, _ => None
      end
  end.

Definition int_of_str (s : str) : option Z :=
  match to_ascii s with
  | Some x => int_of_bytes x
  | None => None
  end.

(** [Ret None] is the [return None] of line 21; [int] raising is
    [ValueError]. *)
Definition string_to_int (string : str) : result (option Z) :=
  if negb (re_match_pattern string) then Ret None
  else match int_of_str string with
       | Some n => Ret (Some n)
       | None => Raise ValueError
       end.

(** A field of ASCII decimal digits, the number it stands for, and
    whether it is non-empty without a leading zero. *)
Definition is_ascii_digit (c : codepoint) : bool :=
  ((48 <=? c) && (c <=? 57))%N.

Definition decimal_value (field : str) : Z :=
  fold_left (fun acc c => 10 * acc + (Z.of_N c - 48)) field 0.

Definition leading_nonzero (field : str) : bool :=
  match field with
  | c :: _ => negb (c =? 48)%N
  | [] => false
  end.

(** The texts that [[1-9]\d*] matches in full: one of the ASCII digits 1 to
    9, then characters that [\d] matches. *)
Definition strict_decimal (digits : str) : bool :=
  match digits with
  | c :: r => ((49 <=? c) && (c <=? 57))%N && forallb re_digit r
  | [] => false
  end.

(** The ASCII digit that [int()] reads for a character that [\d] matches,
    and the number such a text stands for. *)
Definition ascii_digit_of (c : codepoint) : byte :=
  if (c <? 128)%N then byte_of c
  else match unicode_decimal c with
       | Some d => digit_byte d
       | None => "0"%byte
       end.

Definition msglen_value (digits : str) : Z :=
  digits_value (map ascii_digit_of digits).

(** ** [string_to_netstring] *)
Definition string_to_netstring (string : str) : option str :=
  match encode string with
  | Some e => Some (str_of_int (len e) ++ u ":" ++ string ++ u ",")
  | None => None
  end.

(** [string_to_netstring(text).encode()], as every caller uses it. *)
Definition netstring_bytes_of (text : str) : option bytes :=
  match string_to_netstring text with
  | Some s => encode s
  | None => None
  end.

(** The frame built by hand on line 223, for a payload that is bytes:
    [str(len(x)).encode() + b':' + x + b',']. *)
Definition netstring_of_bytes (x : bytes) : bytes :=
  decimal (len x) ++ b ":" ++ x ++ b ",".

(** ** [send_error] and [send_message] *)
Definition send_error {A} (error : str) (sock : socket) : M A :=
  frame <- lift UnicodeEncodeError (netstring_bytes_of (u "E " ++ error)) ;;
  sendall sock frame ;;
  print (u "Error: " ++ error) ;;
  close sock ;;
  sys_exit None.

Definition send_message (message : str) (sock : socket) : M unit :=
  frame <- lift UnicodeEncodeError (netstring_bytes_of message) ;;
  sendall sock frame.

(** ** [receive_message_queue] and its [inner] *)

(** Lines 69-77: [recv] until end of stream or a timeout. *)
Fixpoint recv_loop (script : list recv_event) (netstrings : bytes)
  : result bytes * list recv_event :=
  match script with
  | [] => (Ret netstrings, [])
  | TimedOut :: rest => (Ret netstrings, rest)
  | ConnectionReset :: rest => (Raise OSError, rest)
  | Segment data :: rest =>
      match data with
      | [] => (Ret netstrings, rest)
      | _ :: _ => recv_loop rest (netstrings ++ data)
      end
  end.

Definition recv_all (sock : socket) (netstrings : bytes) : M bytes :=
  fun w =>
    let st := state_of sock w in
    if closed st then (Raise OSError, w)
    else
      let '(r, rest) := recv_loop (inbox st) netstrings in
      (r, with_state sock {| inbox := rest; closed := closed st;
                             broken := broken st |} w).

(** The four ways lines 86-99 refuse a buffer, named after the end of the
    error text each one sends. *)
Inductive decode_error :=
| no_colon
| startswith_0_or_plus
| invalid_length
| no_comma.

Definition decode_error_text (e : decode_error) : str :=
  match e with
  | no_colon => u ", no colon"
  | startswith_0_or_plus => u ", startswith 0 or +"
  | invalid_length => u ", invalid length"
  | no_comma => u ", no comma"
  end.

(** Lines 86-102 of [inner]: the frame at the head of the buffer, and the
    bytes after it. *)
Definition inner_decode (netstrings : bytes)
  : decode_error + (bytes * bytes) :=
  match unpack2 (bsplit ":"%byte (Some 1%nat) netstrings) with
  | None => inl no_colon
  | Some (length, data) =>
      if startswith "0"%byte length || startswith "+"%byte length then
        inl startswith_0_or_plus
      else
        match int_of_bytes length with
        | None => inl invalid_length
        | Some length =>
            if (len data <? length + 1)
               || negb (bytes_eqb
                          (slice (Some length) (Some (length + 1)) data)
                          (b ","))
            then inl no_comma
            else
              let message := slice None (Some length) data in
              let netstrings :=
                if len data >? length + 1
                then slice (Some (length + 1)) None data else [] in
              inr (message, netstrings)
        end
  end.

(** The decoder's [MalformedLength] of the specification: the code reports
    a bad length field in two ways. *)
Definition malformed_length (r : decode_error + (bytes * bytes)) : bool :=
  match r with
  | inl startswith_0_or_plus | inl invalid_length => true
  | _ => false
  end.

Definition inner (sock : socket) (channel : Z) : M bytes :=
  fun w =>
    let netstrings := residual channel w in
    (netstrings <- recv_all sock netstrings ;;
     match netstrings with
     | [] =>
         let error := u "no netstring received" in
         frame <- lift UnicodeEncodeError
                    (netstring_bytes_of (u "E " ++ error)) ;;
         sendall sock frame ;;
         print (u "Error: " ++ error) ;;
         close sock ;;
         sys_exit (Some 1)
     | _ :: _ =>
         match inner_decode netstrings with
         | inl e =>
             send_error (u "invalid netstring: " ++ repr netstrings
                           ++ decode_error_text e) sock
         | inr (message, netstrings) =>
             (fun w' => (Ret tt, with_residual channel netstrings w')) ;;
             let fields := bsplit " "%byte None message in
             if bytes_eqb (nth 0 fields []) (b "E") then
               field <- lift IndexError (nth_error fields 1) ;;
               error <- lift UnicodeDecodeError (decode field) ;;
               send_error error sock
             else ret message
         end
     end) w.

Definition receive_message := inner.

(** ** [build_data_channel] *)
Definition accept (e : env) : M str :=
  fun w =>
    match peer e with
    | Some address => (Ret address, w)
    | None => (Hang, w)
    end.

(** Lines 138-145: the reply to [D <nick>] has to be [T <token>]. *)
Definition check_token_reply (data token : bytes) : M unit :=
  try_bare
    ('(begin, received_token) <-
        lift ValueError (unpack2 (bsplit " "%byte None data)) ;;
     if bytes_eqb begin (b "E") then
       send_error (repr received_token) server_socket
     else if negb (bytes_eqb begin (b "T"))
             || negb (bytes_eqb received_token token) then
       raise ValueError
     else ret tt)
    (send_error (u "invalid message: " ++ repr data ++ u ", expected T "
                   ++ repr token) server_socket).

Definition build_data_channel (e : env) (message nick dst_address : str)
           (token : bytes) : M bytes :=
  server_address <- accept e ;;
  (if negb (str_eqb server_address dst_address) then
     send_error (u "invalid server address: " ++ server_address
                   ++ u ", expected: " ++ dst_address) server_socket
   else ret tt) ;;
  data <- receive_message server_socket 1 ;;
  (if negb (bytes_eqb data (b "T GRNVS V:1.0")) then
     send_error (u "invalid message: " ++ repr data
                   ++ u ", expected T GRNVS V:1.0") server_socket
   else ret tt) ;;
  send_message (u "D " ++ nick) server_socket ;;
  data <- receive_message server_socket 1 ;;
  check_token_reply data token ;;
  send_message (u "D " ++ message) server_socket ;;
  data <- receive_message server_socket 1 ;;
  close server_socket ;;
  ret data.

(** ** [run], in the three phases of its body *)

(** Lines 164-181: the control handshake, which yields the token. *)
Definition run_handshake (nick : str) : M bytes :=
  send_message (u "C GRNVS V:1.0") control_channel ;;
  response <- receive_message control_channel 0 ;;
  (if negb (bytes_eqb response (b "S GRNVS V:1.0")) then
     send_error (u "invalid message: " ++ repr response
                   ++ u ", expected S GRNVS V:1.0") control_channel
   else ret tt) ;;
  send_message (u "C " ++ nick) control_channel ;;
  response <- receive_message control_channel 0 ;;
  try_bare
    ('(begin, token) <-
        lift ValueError (unpack2 (bsplit " "%byte (Some 1%nat) response)) ;;
     if bytes_eqb begin (b "E") then
       send_error (repr token) control_channel
     else if negb (bytes_eqb begin (b "S")) then raise ValueError
     else ret token)
    (send_error (u "invalid message: " ++ repr response
                   ++ u ", expected S <token>") control_channel).

(** Lines 184-201: the data channel, which yields the data token. *)
Definition run_transfer (e : env) (message nick dst_address : str)
           (token : bytes) : M bytes :=
  with_socket data_channel
    (send_message (u "C " ++ str_of_int (dport e)) control_channel ;;
     dtoken_data <- build_data_channel e message nick dst_address token ;;
     try_bare
       ('(begin, dtoken) <-
           lift ValueError
             (unpack2 (bsplit " "%byte (Some 1%nat) dtoken_data)) ;;
        if bytes_eqb begin (b "E") then
          send_error (repr dtoken) control_channel
        else if negb (bytes_eqb begin (b "T")) then raise ValueError
        else ret dtoken)
       (send_error (u "invalid message: " ++ repr dtoken_data
                      ++ u ", expected T <token>") control_channel)).

(** Lines 203-207. When [receive_message] itself raises
    [UnicodeDecodeError], the handler of line 207 reads [data] before any
    assignment to it. *)
Definition receive_text : M str :=
  fun w =>
    match receive_message control_channel 0 w with
    | (Raise UnicodeDecodeError, w') => (Raise UnboundLocalError, w')
    | (Ret data, w') =>
        match decode data with
        | Some text => (Ret text, w')
        | None =>
            send_error (u "invalid utf-8 message: " ++ repr data)
              control_channel w'
        end
    | (Raise e0, w') => (Raise e0, w')
    | (Hang, w') => (Hang, w')
    end.

(** Lines 208-216. *)
Definition parse_msglen (data : str) : M Z :=
  try_bare
    ('(begin, msglen) <-
        lift ValueError (unpack2 (ssplit 32%N None data)) ;;
     if negb (str_eqb begin (u "S")) then raise ValueError
     else
       msglen <- (fun w => (string_to_int msglen, w)) ;;
       lift ValueError msglen)
    (send_error (u "invalid message: " ++ data
                   ++ u ", expected S <msglen>") control_channel).

(** Lines 203-227: the confirmation. *)
Definition run_confirmation (message : str) (dtoken : bytes) : M unit :=
  data <- receive_text ;;
  msglen <- parse_msglen data ;;
  encoded <- lift UnicodeEncodeError (encode message) ;;
  (if negb (msglen =? len encoded) then
     send_error (u "wrong message length: " ++ str_of_int msglen
                   ++ u ", expected: " ++ str_of_int (len encoded))
       control_channel
   else ret tt) ;;
  let sent_bytes := b "C " ++ dtoken in
  sendall control_channel (netstring_of_bytes sent_bytes) ;;
  data <- receive_message control_channel 0 ;;
  if negb (bytes_eqb data (b "S ACK")) then
    send_error (u "invalid message: " ++ repr data ++ u ", expected S ACK")
      control_channel
  else ret tt.

Definition connect (e : env) : M unit :=
  if connect_ok e then ret tt else raise OSError.

Definition run (e : env) (message nick dst_address : str) : M unit :=
  with_socket control_channel
    (connect e ;;
     token <- run_handshake nick ;;
     dtoken <- run_transfer e message nick dst_address token ;;
     run_confirmation message dtoken).

End WithUnicodeDatabase.
End Client.

(* ================================================================== *)
(** * Sample runs *)
(* ================================================================== *)

Module Scenario.
Import Py Eff Client.

Definition connected (script : list recv_event) : sock_state :=
  {| inbox := script; closed := false; broken := false |}.

(** The peer has sent [script] and then dropped the connection. *)
Definition gone (script : list recv_event) : sock_state :=
  {| inbox := script; closed := false; broken := true |}.

(** The world when [run] starts: both buffers empty, nothing observed. *)
Definition start (control server : sock_state) : world :=
  {| control_state := control;
     listener_state := connected [];
     server_state := server;
     control_netstrings := [];
     data_netstrings := [];
     trace := [] |}.

(** A [recv] that brings no bytes: a timeout or the end of the stream. *)
Definition delivers_nothing (e : recv_event) : bool :=
  match e with
  | TimedOut | Segment [] => true
  | _ => false
  end.

(** Frames that arrive one at a time: the peer waits for the client's
    answer after each. *)
Definition one_by_one (frames : list bytes) : list recv_event :=
  flat_map (fun f => [Segment f; TimedOut]) frames.

Definition server_address : str := u "::1".

(** The server's side of a complete session for the nick [alice] and a
    message whose length it reports with the frame [msglen_reply]. *)
Definition control_script (msglen_reply : bytes) : list recv_event :=
  one_by_one [b "13:S GRNVS V:1.0,"; b "8:S tok123,"; msglen_reply;
              b "5:S ACK,"].

Definition server_script : list recv_event :=
  one_by_one [b "13:T GRNVS V:1.0,"; b "8:T tok123,"; b "9:T dtokABC,"].

Definition environment : env :=
  {| connect_ok := true; dport := 40000; peer := Some server_address |}.

(** A small excerpt of the Unicode database: the Arabic-Indic digits
    U+0660-U+0669 and the fullwidth digits U+FF10-U+FF19; the no-break and
    the ideographic space. *)
Definition sample_decimal (c : codepoint) : option N :=
  (if (1632 <=? c) && (c <=? 1641) then Some (c - 1632)
   else if (65296 <=? c) && (c <=? 65305) then Some (c - 65296)
   else None)%N.

Definition sample_space (c : codepoint) : bool :=
  ((c =? 160) || (c =? 12288))%N.

End Scenario.

(* ================================================================== *)
(** * What a script of [recv] results amounts to *)
(* ================================================================== *)

Module Stream.
Import Py Eff Client.
Open Scope py_scope.

(** The bytes the loop of lines 69-77 gathers from a script: the segments
    up to the first [recv] that brings nothing or raises. *)
Fixpoint delivered (script : list recv_event) : bytes :=
  match script with
  | Segment (c :: d) :: rest => (c :: d) ++ delivered rest
  | _ => []
  end.

(** The script left once the loop has stopped. *)
Fixpoint after_stop (script : list recv_event) : list recv_event :=
  match script with
  | Segment (_ :: _) :: rest => after_stop rest
  | _ :: rest => rest
  | [] => []
  end.

(** Whether the loop is ended by an [OSError] that is not a timeout. *)
Fixpoint reset_first (script : list recv_event) : bool :=
  match script with
  | Segment (_ :: _) :: rest => reset_first rest
  | ConnectionReset :: _ => true
  | _ => false
  end.

(** The tag of a message as line 111 reads it: the first of its fields
    between blanks. *)
Definition tag (message : bytes) : bytes :=
  nth 0 (bsplit " "%byte None message) [].

(** The socket [sock] with another script, everything else as in [w]. *)
Definition with_inbox (sock : socket) (script : list recv_event)
           (w : world) : world :=
  with_state sock
    {| inbox := script; closed := closed (state_of sock w);
       broken := broken (state_of sock w) |} w.

(** Lines 79-113 of [inner] on their own: what it does with the buffer
    once the loop has stopped. [inner] is the loop followed by this. *)
Definition inner_after_recv (sock : socket) (channel : Z)
           (netstrings : bytes) : M bytes :=
  match netstrings with
  | [] =>
      let error := u "no netstring received" in
      frame <- lift UnicodeEncodeError
                 (netstring_bytes_of (u "E " ++ error)) ;;
      sendall sock frame ;;
      print (u "Error: " ++ error) ;;
      close sock ;;
      sys_exit (Some 1)
  | _ :: _ =>
      match inner_decode netstrings with
      | inl e =>
          send_error (u "invalid netstring: " ++ repr netstrings
                        ++ decode_error_text e) sock
      | inr (message, netstrings) =>
          (fun w' => (Ret tt, with_residual channel netstrings w')) ;;
          let fields := bsplit " "%byte None message in
          if bytes_eqb (nth 0 fields []) (b "E") then
            field <- lift IndexError (nth_error fields 1) ;;
            error <- lift UnicodeDecodeError (decode field) ;;
            send_error error sock
          else ret message
      end
  end.

End Stream.

(* ================================================================== *)
(** * Facts about the Python values *)
(* ================================================================== *)

Module PyFacts.
Import Py.

(** ** [split] *)

Section Split.
Context {A : Type} (eqb : A -> A -> bool).
Hypothesis eqb_spec : forall x y, eqb x y = true <-> x = y.

Lemma split_no_limit_left (sep : A) (l : list A) :
  split eqb sep (Some O) l = [l].
Proof.
  induction l as [|c r IH]; simpl; [reflexivity|].
  rewrite andb_false_r, IH. reflexivity.
Qed.

Lemma split_first (sep : A) (pre post : list A) :
  ~ In sep pre ->
  split eqb sep (Some 1%nat) (pre ++ sep :: post) = [pre; post].
Proof.
  induction pre as [|c r IH]; simpl; intros Hnot.
  - assert (E : eqb sep sep = true) by (apply eqb_spec; reflexivity).
    rewrite E. simpl. rewrite split_no_limit_left. reflexivity.
  - destruct (eqb c sep) eqn:E.
    + apply eqb_spec in E. subst c. exfalso. apply Hnot. now left.
    + simpl. rewrite IH by (intro H; apply Hnot; now right). reflexivity.
Qed.

Lemma split_none (sep : A) (l : list A) :
  ~ In sep l -> split eqb sep None l = [l].
Proof.
  induction l as [|c r IH]; simpl; intros Hnot; [reflexivity|].
  destruct (eqb c sep) eqn:E.
  - apply eqb_spec in E. subst c. exfalso. apply Hnot. now left.
  - simpl. rewrite IH by (intro H; apply Hnot; now right). reflexivity.
Qed.

Lemma split_all_two (sep : A) (pre post : list A) :
  ~ In sep pre -> ~ In sep post ->
  split eqb sep None (pre ++ sep :: post) = [pre; post].
Proof.
  induction pre as [|c r IH]; simpl; intros Hpre Hpost.
  - assert (E : eqb sep sep = true) by (apply eqb_spec; reflexivity).
    rewrite E. simpl. rewrite split_none by assumption. reflexivity.
  - destruct (eqb c sep) eqn:E.
    + apply eqb_spec in E. subst c. exfalso. apply Hpre. now left.
    + simpl. rewrite IH; auto. 
Qed.

Lemma split_nonempty (sep : A) (maxsplit : option nat) (l : list A) :
  split eqb sep maxsplit l <> [].
Proof.
  destruct l as [|c r]; simpl; [discriminate|].
  destruct (eqb c sep && match maxsplit with Some O => false | _ => true end);
    [discriminate|].
  destruct (split eqb sep maxsplit r); discriminate.
Qed.

Lemma split_one_inv (sep : A) (l y : list A) :
  split eqb sep None l = [y] -> l = y.
Proof.
  revert y. induction l as [|c r IH]; simpl; intros y H.
  - now injection H.
  - rewrite andb_true_r in H. destruct (eqb c sep).
    + injection H as _ H. now apply split_nonempty in H.
    + destruct (split eqb sep None r) as [|hd tl] eqn:E.
      * now apply split_nonempty in E.
      * injection H as <- ->. now rewrite (IH hd eq_refl).
Qed.

Lemma split_two_inv (sep : A) (l x y : list A) :
  split eqb sep None l = [x; y] -> l = x ++ sep :: y.
Proof.
  revert x. induction l as [|c r IH]; simpl; intros x H; [discriminate|].
  rewrite andb_true_r in H. destruct (eqb c sep) eqn:Ec.
  - injection H as <- H. apply eqb_spec in Ec. subst c.
    now rewrite (split_one_inv _ _ _ H).
  - destruct (split eqb sep None r) as [|hd tl] eqn:E.
    + now apply split_nonempty in E.
    + injection H as <- ->. now rewrite (IH hd eq_refl).
Qed.

End Split.

Lemma byte_eqb_spec (x y : byte) : Byte.eqb x y = true <-> x = y.
Proof.
  split; [apply Byte.byte_dec_bl | apply Byte.byte_dec_lb].
Qed.

Lemma bytes_eqb_spec (x y : bytes) : bytes_eqb x y = true <-> x = y.
Proof.
  unfold bytes_eqb. destruct (list_eq_dec Byte.byte_eq_dec x y); split; congruence.
Qed.

Lemma bytes_eqb_refl (x : bytes) : bytes_eqb x x = true.
Proof. now apply bytes_eqb_spec. Qed.

Lemma str_eqb_spec (x y : str) : str_eqb x y = true <-> x = y.
Proof.
  unfold str_eqb. destruct (list_eq_dec N.eq_dec x y); split; congruence.
Qed.


(** ** Decimal digits *)
Lemma digit_not_special (c : byte) :
  is_digit c = true ->
  is_space c = false /\ Byte.eqb c "+"%byte = false
  /\ Byte.eqb c "-"%byte = false /\ Byte.eqb c "_"%byte = false
  /\ Byte.eqb c ":"%byte = false /\ Byte.eqb c " "%byte = false
  /\ (Byte.to_N c < 128)%N.
Proof.
  destruct c; intros H; try discriminate H; repeat split.
Qed.

Lemma digit_byte_spec (d : N) :
  (d < 10)%N ->
  is_digit (digit_byte d) = true /\ digit_val (digit_byte d) = Z.of_N d
  /\ (Byte.eqb (digit_byte d) "0"%byte = true <-> d = 0%N).
Proof.
  intros H.
  assert (E : (d = 0 \/ d = 1 \/ d = 2 \/ d = 3 \/ d = 4 \/ d = 5 \/ d = 6
               \/ d = 7 \/ d = 8 \/ d = 9)%N) by lia.
  repeat (destruct E as [E|E]; [subst d; repeat split; intros; try reflexivity; try discriminate | ]).
  subst d; repeat split; intros; try reflexivity; discriminate.
Qed.

Lemma scan_digits_all (l : bytes) :
  forall seen acc,
    forallb is_digit l = true ->
    l <> [] \/ seen = true ->
    scan_digits false seen acc l
    = Some (fold_left (fun a c => 10 * a + digit_val c) l acc, []).
Proof.
  induction l as [|c r IH]; intros seen acc Hall Hne; simpl.
  - destruct Hne as [Hne|Hne]; [congruence | now rewrite Hne].
  - simpl in Hall. apply andb_true_iff in Hall as [Hc Hr].
    rewrite Hc. apply IH; auto.
Qed.

Lemma digit_run_all (l : bytes) :
  forallb is_digit l = true -> digit_run l = List.length l.
Proof.
  induction l as [|c r IH]; simpl; intros H; [reflexivity|].
  apply andb_true_iff in H as [Hc Hr]. now rewrite Hc, IH.
Qed.

(** [int()] on a run of digits: its value up to the limit, [ValueError]
    beyond. *)
Lemma int_of_bytes_digit_run (l : bytes) :
  forallb is_digit l = true -> l <> [] ->
  int_of_bytes l
  = if (int_max_str_digits <? List.length l)%nat then None
    else Some (digits_value l).
Proof.
  intros Hall Hne. destruct l as [|c r]; [congruence|].
  pose proof Hall as Hall'.
  simpl in Hall'. apply andb_true_iff in Hall' as [Hc _].
  destruct (digit_not_special c Hc) as (Hs & Hp & Hm & Hu & _).
  unfold int_of_bytes. cbn [lstrip]. rewrite Hs, Hp, Hm.
  cbn [startswith]. rewrite Hu.
  rewrite (scan_digits_all (c :: r) false 0 Hall) by (left; discriminate).
  rewrite (digit_run_all (c :: r) Hall). reflexivity.
Qed.

Lemma int_of_bytes_digits (l : bytes) :
  forallb is_digit l = true -> l <> [] ->
  (List.length l <= int_max_str_digits)%nat ->
  int_of_bytes l = Some (digits_value l).
Proof.
  intros Hall Hne Hlen. rewrite (int_of_bytes_digit_run l Hall Hne).
  destruct (int_max_str_digits <? List.length l)%nat eqn:E;
    [apply Nat.ltb_lt in E; lia | reflexivity].
Qed.

Lemma scan_digits_then_newline (l : bytes) :
  forall seen acc,
    forallb is_digit l = true ->
    l <> [] \/ seen = true ->
    scan_digits false seen acc (l ++ [byte_of 10])
    = Some (fold_left (fun a c => 10 * a + digit_val c) l acc,
            [byte_of 10]).
Proof.
  induction l as [|c r IH]; intros seen acc Hall Hne.
  - destruct Hne as [Hne|Hne]; [congruence | now rewrite Hne].
  - simpl in Hall. apply andb_true_iff in Hall as [Hc Hr].
    cbn [app scan_digits]. rewrite Hc. cbn [fold_left]. apply IH; auto.
Qed.

Lemma digit_run_then_newline (l : bytes) :
  forallb is_digit l = true ->
  digit_run (l ++ [byte_of 10]) = List.length l.
Proof.
  induction l as [|c r IH]; simpl; intros H; [reflexivity|].
  apply andb_true_iff in H as [Hc Hr]. now rewrite Hc, IH.
Qed.

(** [int()] on a run of digits that ends the input or is followed by one
    newline. *)
Lemma int_of_bytes_digits_then (l tail : bytes) :
  forallb is_digit l = true -> l <> [] ->
  tail = [] \/ tail = [byte_of 10] ->
  int_of_bytes (l ++ tail)
  = if (int_max_str_digits <? List.length l)%nat then None
    else Some (digits_value l).
Proof.
  intros Hall Hne [->| ->].
  - rewrite app_nil_r. now apply int_of_bytes_digit_run.
  - destruct l as [|c r]; [congruence|].
    pose proof Hall as Hall'.
    simpl in Hall'. apply andb_true_iff in Hall' as [Hc _].
    destruct (digit_not_special c Hc) as (Hs & Hp & Hm & Hu & _).
    unfold int_of_bytes. cbn [app lstrip]. rewrite Hs, Hp, Hm.
    cbn [startswith]. rewrite Hu.
    change (c :: r ++ [byte_of 10]) with ((c :: r) ++ [byte_of 10]).
    rewrite (scan_digits_then_newline _ false 0 Hall)
      by (left; discriminate).
    rewrite (digit_run_then_newline _ Hall).
    destruct (int_max_str_digits <? List.length (c :: r))%nat;
      reflexivity.
Qed.

Lemma is_digit_digit_byte (d : N) : is_digit (digit_byte d) = true.
Proof.
  destruct d as [|p]; [reflexivity|].
  do 4 (try destruct p as [p|p|]; try reflexivity).
Qed.

Lemma digits_value_snoc (l : bytes) (c : byte) :
  digits_value (l ++ [c]) = 10 * digits_value l + digit_val c.
Proof. unfold digits_value. now rewrite fold_left_app. Qed.

Lemma startswith_app (c : byte) (l1 l2 : bytes) :
  l1 <> [] -> startswith c (l1 ++ l2) = startswith c l1.
Proof. destruct l1; [congruence | reflexivity]. Qed.

Lemma digits_acc_spec (fuel : nat) :
  forall n acc,
    (n < 2 ^ N.of_nat (S fuel))%N ->
    exists ds,
      digits_acc fuel n acc = ds ++ acc
      /\ forallb is_digit ds = true
      /\ ds <> []
      /\ digits_value ds = Z.of_N n
      /\ ((0 < n)%N -> startswith "0"%byte ds = false).
Proof.
  induction fuel as [|fuel IH]; intros n acc Hn.
  - assert (Hlt : (n < 10)%N) by (change (2 ^ N.of_nat 1)%N with 2%N in Hn; lia).
    destruct (digit_byte_spec (n mod 10)) as (Hd & Hv & Hz);
      [apply N.mod_lt; lia|].
    rewrite N.mod_small in * by lia.
    exists [digit_byte n]. simpl. rewrite N.mod_small by lia.
    repeat split.
    + now rewrite Hd.
    + discriminate.
    + unfold digits_value. simpl. lia.
    + intros Hpos. destruct (Byte.eqb (digit_byte n) "0"); [|reflexivity].
      assert (n = 0%N) by (now apply Hz). lia.
  - destruct (digit_byte_spec (n mod 10)) as (Hd & Hv & Hz);
      [apply N.mod_lt; lia|].
    cbn [digits_acc]. destruct (n / 10 =? 0)%N eqn:Hq.
    + apply N.eqb_eq in Hq.
      assert (Hlt : (n < 10)%N).
      { apply N.div_small_iff in Hq; lia. }
      rewrite N.mod_small in * by lia.
      exists [digit_byte n]. repeat split.
      * simpl. now rewrite Hd.
      * discriminate.
      * unfold digits_value. simpl. lia.
      * intros Hpos. cbn [startswith].
        destruct (Byte.eqb (digit_byte n) "0"); [|reflexivity].
        assert (n = 0%N) by (now apply Hz). lia.
    + apply N.eqb_neq in Hq.
      destruct (IH (n / 10)%N (digit_byte (n mod 10) :: acc))
        as (ds & Heq & Hall & Hne & Hval & Hlead).
      { replace (N.of_nat (S (S fuel))) with (N.succ (N.of_nat (S fuel))) in Hn by lia.
        rewrite N.pow_succ_r' in Hn.
        apply N.Div0.div_lt_upper_bound.
        assert (0 < 2 ^ N.of_nat (S fuel))%N by (apply N.neq_0_lt_0, N.pow_nonzero; lia).
        lia. }
      exists (ds ++ [digit_byte (n mod 10)]). repeat split.
      * rewrite Heq, <- app_assoc. reflexivity.
      * rewrite forallb_app, Hall. simpl. now rewrite Hd.
      * intro H. now apply app_eq_nil in H as [H _].
      * rewrite digits_value_snoc, Hval, Hv.
        pose proof (N.div_mod n 10). lia.
      * intros _. rewrite startswith_app by assumption. apply Hlead.
        now apply N.neq_0_lt_0.
Qed.

Lemma digits_of_N_spec (n : N) :
  forallb is_digit (digits_of_N n) = true
  /\ digits_of_N n <> []
  /\ digits_value (digits_of_N n) = Z.of_N n
  /\ ((0 < n)%N -> startswith "0"%byte (digits_of_N n) = false).
Proof.
  unfold digits_of_N.
  destruct (digits_acc_spec (N.to_nat (N.log2 n)) n []) as (ds & Heq & H).
  - destruct (N.eq_dec n 0) as [->|Hn]; [reflexivity|].
    replace (N.of_nat (S (N.to_nat (N.log2 n)))) with (N.succ (N.log2 n)) by lia.
    apply N.log2_spec. lia.
  - rewrite Heq, app_nil_r. exact H.
Qed.

Lemma decimal_spec (z : Z) :
  0 <= z ->
  forallb is_digit (decimal z) = true
  /\ decimal z <> []
  /\ ((List.length (decimal z) <= int_max_str_digits)%nat ->
      int_of_bytes (decimal z) = Some z)
  /\ (0 < z -> startswith "0"%byte (decimal z) = false).
Proof.
  intros Hz. unfold decimal.
  destruct (z <? 0) eqn:E; [apply Z.ltb_lt in E; lia|].
  destruct (digits_of_N_spec (Z.to_N z)) as (Hall & Hne & Hval & Hlead).
  repeat split; auto.
  - intros Hlen. rewrite int_of_bytes_digits by assumption.
    rewrite Hval. f_equal. lia.
  - intros Hpos. apply Hlead. lia.
Qed.

(** ** Slices of a buffer that starts with a known prefix *)
Lemma slice_prefix {A} (m r : list A) :
  slice None (Some (len m)) (m ++ r) = m.
Proof.
  unfold slice, clamp_index, len. rewrite length_app.
  destruct (Z.of_nat (List.length m) <? 0) eqn:E;
    [apply Z.ltb_lt in E; lia|].
  rewrite Z.min_l by lia. simpl skipn.
  replace (Z.to_nat (Z.of_nat (List.length m) - 0)) with (List.length m) by lia.
  rewrite firstn_app, Nat.sub_diag, firstn_all. simpl. apply app_nil_r.
Qed.

Lemma slice_at {A} (m r : list A) (c : A) :
  slice (Some (len m)) (Some (len m + 1)) (m ++ c :: r) = [c].
Proof.
  unfold slice, clamp_index, len. rewrite length_app. simpl List.length.
  destruct (Z.of_nat (List.length m) <? 0) eqn:E;
    [apply Z.ltb_lt in E; lia|].
  destruct (Z.of_nat (List.length m) + 1 <? 0) eqn:E';
    [apply Z.ltb_lt in E'; lia|].
  rewrite !Z.min_l by lia.
  replace (Z.to_nat (Z.of_nat (List.length m) + 1 - Z.of_nat (List.length m)))
    with 1%nat by lia.
  rewrite Nat2Z.id, skipn_app, skipn_all, Nat.sub_diag. reflexivity.
Qed.

Lemma slice_suffix {A} (m r : list A) (c : A) :
  slice (Some (len m + 1)) None (m ++ c :: r) = r.
Proof.
  unfold slice, clamp_index, len. rewrite length_app. simpl List.length.
  destruct (Z.of_nat (List.length m) + 1 <? 0) eqn:E;
    [apply Z.ltb_lt in E; lia|].
  rewrite Z.min_l by lia.
  replace (Z.to_nat (Z.of_nat (List.length m) + 1)) with (S (List.length m)) by lia.
  replace (Z.to_nat (Z.of_nat (List.length m + S (List.length r))
                     - (Z.of_nat (List.length m) + 1)))
    with (List.length r) by lia.
  replace (m ++ c :: r) with ((m ++ [c]) ++ r) by (now rewrite <- app_assoc).
  rewrite skipn_app, skipn_all2 by (rewrite length_app; simpl; lia).
  rewrite length_app. simpl List.length.
  replace (S (List.length m) - (List.length m + 1))%nat with 0%nat by lia.
  simpl. apply firstn_all.
Qed.

(** ** UTF-8 of ASCII text *)
Lemma encode_app (s1 s2 : str) :
  encode (s1 ++ s2)
  = match encode s1, encode s2 with
    | Some x, Some y => Some (x ++ y)
    | _, _ => None
    end.
Proof.
  induction s1 as [|c r IH]; simpl.
  - now destruct (encode s2).
  - rewrite IH. destruct (encode_cp c), (encode r), (encode s2);
      try reflexivity. now rewrite app_assoc.
Qed.



Lemma byte_of_to_N (c : byte) : byte_of (Byte.to_N c) = c.
Proof. unfold byte_of. now rewrite Byte.of_to_N. Qed.

Lemma encode_ascii (x : bytes) :
  forallb is_ascii x = true -> encode (map Byte.to_N x) = Some x.
Proof.
  induction x as [|c r IH]; simpl; intros H; [reflexivity|].
  apply andb_true_iff in H as [Hc Hr]. rewrite (IH Hr).
  unfold encode_cp. unfold is_ascii in Hc. rewrite Hc, byte_of_to_N.
  reflexivity.
Qed.

Lemma digits_are_ascii (x : bytes) :
  forallb is_digit x = true -> forallb is_ascii x = true.
Proof.
  induction x as [|c r IH]; simpl; intros H; [reflexivity|].
  apply andb_true_iff in H as [Hc Hr]. rewrite (IH Hr), andb_true_r.
  unfold is_ascii. apply N.ltb_lt. now apply digit_not_special.
Qed.

Lemma digits_no_colon (x : bytes) :
  forallb is_digit x = true -> ~ In ":"%byte x.
Proof.
  induction x as [|c r IH]; simpl; intros H; [tauto|].
  apply andb_true_iff in H as [Hc Hr]. intros [E|E]; [|now apply IH].
  subst c. discriminate Hc.
Qed.

Lemma encode_decimal (z : Z) :
  0 <= z -> encode (str_of_int z) = Some (decimal z).
Proof.
  intros Hz. apply encode_ascii, digits_are_ascii. now apply decimal_spec.
Qed.

End PyFacts.

(* ================================================================== *)
(** * Properties of the client *)
(* ================================================================== *)

Module Properties.
Import Py Eff Client Scenario Stream PyFacts.

(** ** Frames *)

Lemma netstring_bytes_of_encode (string : str) (m : bytes) :
  encode string = Some m ->
  netstring_bytes_of string = Some (netstring_of_bytes m).
Proof.
  intros Hm. unfold netstring_bytes_of, string_to_netstring.
  rewrite Hm. rewrite !encode_app, Hm.
  rewrite encode_decimal by (unfold len; lia). reflexivity.
Qed.

Lemma inner_decode_frame (m rest : bytes) :
  m <> [] ->
  (List.length (decimal (len m)) <= int_max_str_digits)%nat ->
  inner_decode (netstring_of_bytes m ++ rest) = inr (m, rest).
Proof.
  intros Hm Hdigits.
  assert (Hlen : 0 < len m).
  { unfold len. destruct m; [congruence | simpl; lia]. }
  destruct (decimal_spec (len m)) as (Hall & Hne & Hint & Hlead); [lia|].
  specialize (Hint Hdigits).
  unfold inner_decode, netstring_of_bytes, bsplit.
  change (b ":") with [":"%byte]. change (b ",") with [","%byte].
  rewrite <- !app_assoc. simpl app.
  rewrite (split_first Byte.eqb byte_eqb_spec)
    by now apply digits_no_colon.
  cbn [unpack2]. rewrite (Hlead Hlen).
  assert (Hplus : startswith "+"%byte (decimal (len m)) = false).
  { destruct (decimal (len m)) as [|c r]; [reflexivity|].
    simpl in Hall. apply andb_true_iff in Hall as [Hc _].
    simpl. now apply digit_not_special. }
  rewrite Hplus, Hint. cbn [orb].
  assert (Hshort : (len (m ++ ","%byte :: rest) <? len m + 1) = false).
  { apply Z.ltb_ge. unfold len. rewrite length_app. simpl. lia. }
  rewrite Hshort, slice_at, slice_prefix. cbn [orb bytes_eqb].
  change (bytes_eqb [","%byte] [","%byte]) with true. cbn [negb].
  destruct (len (m ++ ","%byte :: rest) >? len m + 1) eqn:E.
  - now rewrite slice_suffix.
  - destruct rest as [|c r]; [reflexivity|].
    exfalso. rewrite Z.gtb_ltb in E. apply Z.ltb_ge in E.
    unfold len in E. rewrite length_app in E. simpl in E. lia.
Qed.

(** Two frames are the same only for the same payload. *)
Lemma netstring_of_bytes_inj (x y : bytes) :
  netstring_of_bytes x = netstring_of_bytes y -> x = y.
Proof.
  unfold netstring_of_bytes. intros E.
  change (b ":") with [":"%byte] in E. change (b ",") with [","%byte] in E.
  simpl app in E.
  assert (Hx : ~ In ":"%byte (decimal (len x))).
  { apply digits_no_colon, decimal_spec. unfold len. lia. }
  assert (Hy : ~ In ":"%byte (decimal (len y))).
  { apply digits_no_colon, decimal_spec. unfold len. lia. }
  apply (f_equal (split Byte.eqb ":"%byte (Some 1%nat))) in E.
  rewrite !(split_first Byte.eqb byte_eqb_spec) in E by assumption.
  injection E as _ E. now apply app_inj_tail in E as [E _].
Qed.

(** ** The receive loop *)

Lemma recv_loop_spec (script : list recv_event) :
  forall acc,
    recv_loop script acc
    = (if reset_first script then Raise OSError
       else Ret (acc ++ delivered script),
       after_stop script).
Proof.
  induction script as [|e rest IH]; intros acc; simpl.
  - now rewrite app_nil_r.
  - destruct e as [[|c d]| |]; simpl; rewrite ?app_nil_r; try reflexivity.
    rewrite IH, <- app_assoc. reflexivity.
Qed.

Lemma inner_unfold (sock : socket) (channel : Z) (w : world) :
  inner sock channel w
  = bind (recv_all sock (residual channel w))
      (inner_after_recv sock channel) w.
Proof. reflexivity. Qed.

Lemma recv_all_open (sock : socket) (acc : bytes) (w : world) :
  closed (state_of sock w) = false ->
  recv_all sock acc w
  = (if reset_first (inbox (state_of sock w)) then Raise OSError
     else Ret (acc ++ delivered (inbox (state_of sock w))),
     with_inbox sock (after_stop (inbox (state_of sock w))) w).
Proof.
  intros Hopen. unfold recv_all. rewrite Hopen, recv_loop_spec.
  unfold with_inbox. now rewrite Hopen.
Qed.

Lemma inner_open (sock : socket) (channel : Z) (w : world) :
  closed (state_of sock w) = false ->
  inner sock channel w
  = if reset_first (inbox (state_of sock w))
    then (Raise OSError,
          with_inbox sock (after_stop (inbox (state_of sock w))) w)
    else inner_after_recv sock channel
           (residual channel w ++ delivered (inbox (state_of sock w)))
           (with_inbox sock (after_stop (inbox (state_of sock w))) w).
Proof.
  intros Hopen. rewrite inner_unfold. unfold bind.
  rewrite (recv_all_open sock _ w Hopen).
  now destruct (reset_first (inbox (state_of sock w))).
Qed.

Lemma state_of_with_inbox (sock : socket) (script : list recv_event)
      (w : world) :
  state_of sock (with_inbox sock script w)
  = {| inbox := script; closed := closed (state_of sock w);
       broken := broken (state_of sock w) |}.
Proof. now destruct sock. Qed.

(** ** Sample sessions *)

(** The complete session of the specification: nick [alice], message
    [hello], tokens [tok123] and [dtokABC]. *)
Example session_succeeds :
  let '(r, w) :=
    run sample_decimal sample_space environment
      (u "hello") (u "alice") server_address
      (start (connected (control_script (b "3:S 5,")))
             (connected server_script)) in
  r = Ret tt
  /\ exit_status r = Some 0
  /\ trace w = [Sent control_channel (b "13:C GRNVS V:1.0,");
                Sent control_channel (b "7:C alice,");
                Sent control_channel (b "7:C 40000,");
                Sent server_socket (b "7:D alice,");
                Sent server_socket (b "7:D hello,");
                Closed server_socket;
                Closed data_channel;
                Sent control_channel (b "9:C dtokABC,");
                Closed control_channel].
Proof. vm_compute. repeat split. Qed.

(** A frame that arrives in two segments is put together. *)
Example split_frame_accumulates :
  fst (inner control_channel 0
         (start (connected [Segment (b "3:ab"); Segment (b "c,"); TimedOut])
                (connected [])))
  = Ret (b "abc").
Proof. reflexivity. Qed.

(** A caller from another address is turned away before any message goes
    out on the data channel. *)
Example foreign_caller_refused :
  let '(r, w) :=
    run sample_decimal sample_space
      {| connect_ok := true; dport := 40000; peer := Some (u "::2") |}
      (u "hello") (u "alice") server_address
      (start (connected (control_script (b "3:S 5,")))
             (connected server_script)) in
  r = Raise (SystemExit None)
  /\ trace w = [Sent control_channel (b "13:C GRNVS V:1.0,");
                Sent control_channel (b "7:C alice,");
                Sent control_channel (b "7:C 40000,");
                Sent server_socket
                  (b "44:E invalid server address: ::2, expected: ::1,");
                Printed (u "Error: invalid server address: ::2, expected: ::1");
                Closed server_socket;
                Closed data_channel;
                Closed control_channel].
Proof. vm_compute. repeat split. Qed.

(** What [int()] and [$] let through besides plain decimals: a length
    field with a minus sign, white space or an underscore, and a [msglen]
    followed by a newline or written with other decimal digits (here
    U+0662). *)
Example lenient_numbers :
  inner_decode (b "-2:ab,c") = inr (b "ab", b "c")
  /\ inner_decode (b " 3:abc,") = inr (b "abc", [])
  /\ inner_decode (b "1_0:0123456789,") = inr (b "0123456789", [])
  /\ string_to_int sample_decimal sample_space (u "5" ++ [10%N])
     = Ret (Some 5)
  /\ string_to_int sample_decimal sample_space [49%N; 1634%N]
     = Ret (Some 12).
Proof. vm_compute. repeat split. Qed.

(** ** The framing decoder *)

(** C1, as the code has it: the decoder refuses the frame [0:,] because its
    length field begins with [0], as it refuses [00:,] and [+3:abc,];
    [3abc,] fails for its missing colon and [3:ab,] with the one error the
    code has for a payload that is too short or not followed by a comma.
    In general the length field (the bytes before the first colon) is
    refused as malformed when it is empty, when it begins with [0], be it
    the single character [0], and when it begins with [+]; a field made of
    decimal digits only is refused as malformed exactly when it is empty,
    begins with [0] or has more digits than [int()] converts (4300). *)
Theorem C1_decoder_rejections (length data : bytes) :
  ~ In ":"%byte length ->
  inner_decode (b "0:,") = inl startswith_0_or_plus
  /\ inner_decode (b "00:,") = inl startswith_0_or_plus
  /\ inner_decode (b "+3:abc,") = inl startswith_0_or_plus
  /\ inner_decode (b "3abc,") = inl no_colon
  /\ inner_decode (b "3:ab,") = inl no_comma
  /\ (length = [] ->
      inner_decode (length ++ b ":" ++ data) = inl invalid_length)
  /\ (startswith "0"%byte length = true
      \/ startswith "+"%byte length = true ->
      inner_decode (length ++ b ":" ++ data) = inl startswith_0_or_plus)
  /\ (forallb is_digit length = true ->
      (malformed_length (inner_decode (length ++ b ":" ++ data)) = true
       <-> length = []
           \/ startswith "0"%byte length = true
           \/ (int_max_str_digits < List.length length)%nat)).
Proof.
  intros Hcolon. do 5 (split; [reflexivity|]).
  assert (Hsplit :
            inner_decode (length ++ b ":" ++ data)
            = if startswith "0"%byte length || startswith "+"%byte length
              then inl startswith_0_or_plus
              else
                match int_of_bytes length with
                | None => inl invalid_length
                | Some n =>
                    if (len data <? n + 1)
                       || negb (bytes_eqb
                                  (slice (Some n) (Some (n + 1)) data)
                                  (b ","))
                    then inl no_comma
                    else inr (slice None (Some n) data,
                              if len data >? n + 1
                              then slice (Some (n + 1)) None data else [])
                end).
  { unfold inner_decode, bsplit. change (b ":") with [":"%byte]. simpl app.
    now rewrite (split_first Byte.eqb byte_eqb_spec) by assumption. }
  rewrite Hsplit. split; [|split].
  - intros ->. reflexivity.
  - intros [H|H]; rewrite H; [reflexivity | now rewrite orb_true_r].
  - intros Hall.
    destruct length as [|c r]; [split; [now left | reflexivity]|].
    destruct (startswith "0"%byte (c :: r)) eqn:Hz;
      [split; [intros _; right; now left | reflexivity]|].
    assert (Hp : startswith "+"%byte (c :: r) = false).
    { simpl in Hall. apply andb_true_iff in Hall as [Hc _].
      simpl. now apply digit_not_special. }
    rewrite Hp, (int_of_bytes_digit_run (c :: r) Hall) by discriminate.
    cbn [orb].
    destruct (int_max_str_digits <? List.length (c :: r))%nat eqn:Hlong.
    + apply Nat.ltb_lt in Hlong. split; [intros _; now do 2 right|reflexivity].
    + apply Nat.ltb_ge in Hlong. split.
      * match goal with
        | |- context [if ?t then _ else _] => destruct t
        end; discriminate.
      * intros [H|[H|H]]; [discriminate H | discriminate H | lia].
Qed.

Lemma C1_decoder_rejections_witness :
  inner_decode (b "0:,") = inl startswith_0_or_plus
  /\ inner_decode (b "00:,") = inl startswith_0_or_plus
  /\ inner_decode (b "+3:abc,") = inl startswith_0_or_plus
  /\ inner_decode (b "3abc,") = inl no_colon
  /\ inner_decode (b "3:ab,") = inl no_comma
  /\ (b "12" = [] ->
      inner_decode (b "12" ++ b ":" ++ b "x") = inl invalid_length)
  /\ (startswith "0"%byte (b "12") = true
      \/ startswith "+"%byte (b "12") = true ->
      inner_decode (b "12" ++ b ":" ++ b "x") = inl startswith_0_or_plus)
  /\ (forallb is_digit (b "12") = true ->
      (malformed_length (inner_decode (b "12" ++ b ":" ++ b "x")) = true
       <-> b "12" = []
           \/ startswith "0"%byte (b "12") = true
           \/ (int_max_str_digits < List.length (b "12"))%nat)).
Proof.
  apply (C1_decoder_rejections (b "12") (b "x")).
  intros [H|[H|[]]]; discriminate H.
Defined.

(** C1 as stated fails: [0:,] is not decoded as the empty message; it is
    refused as a malformed length although the field [0] is not empty, is
    one character long, does not begin with [+] and holds digits only. *)
Lemma C1_zero_length_frame_refused :
  inner_decode (b "0:,") <> inr ([], [])
  /\ malformed_length (inner_decode (b "0:,")) = true
  /\ ~ (b "0" = []
        \/ (startswith "0"%byte (b "0") = true /\ 1 < len (b "0"))
        \/ startswith "+"%byte (b "0") = true
        \/ forallb is_digit (b "0") = false).
Proof.
  split; [discriminate|]. split; [reflexivity|].
  intros [H|[[_ H]|[H|H]]]; discriminate H.
Qed.

(** C2, as the code has it: for every non-empty byte sequence [m] whose
    length is written with at most 4300 digits (so for every sequence a
    machine can hold), decoding the frame [str(len(m)) + ":" + m + ","]
    gives back [m] and an empty remainder, whether the frame is built from
    bytes (line 223) or by [string_to_netstring] from a text whose UTF-8
    form is [m]. *)
Theorem C2_roundtrip_nonempty (m : bytes) :
  m <> [] ->
  (List.length (decimal (len m)) <= int_max_str_digits)%nat ->
  inner_decode (netstring_of_bytes m) = inr (m, [])
  /\ forall string : str,
      encode string = Some m ->
      exists frame,
        netstring_bytes_of string = Some frame
        /\ inner_decode frame = inr (m, []).
Proof.
  intros Hm Hdigits.
  assert (H : inner_decode (netstring_of_bytes m) = inr (m, [])).
  { rewrite <- (app_nil_r (netstring_of_bytes m)).
    now apply inner_decode_frame. }
  split; [exact H|]. intros string Henc.
  exists (netstring_of_bytes m). split; [|exact H].
  now apply netstring_bytes_of_encode.
Qed.

Lemma C2_roundtrip_nonempty_witness :
  inner_decode (netstring_of_bytes (b "hello")) = inr (b "hello", [])
  /\ forall string : str,
      encode string = Some (b "hello") ->
      exists frame,
        netstring_bytes_of string = Some frame
        /\ inner_decode frame = inr (b "hello", []).
Proof.
  apply (C2_roundtrip_nonempty (b "hello")); [discriminate|].
  apply Nat.leb_le. reflexivity.
Defined.

(** C2 as stated fails for the empty sequence: its frame is [0:,], which
    the decoder refuses. *)
Lemma C2_empty_message_not_decoded :
  netstring_of_bytes [] = b "0:,"
  /\ netstring_bytes_of [] = Some (b "0:,")
  /\ inner_decode (netstring_of_bytes []) = inl startswith_0_or_plus
  /\ inner_decode (netstring_of_bytes []) <> inr ([], []).
Proof. repeat split; try reflexivity. discriminate. Qed.

(** ** The channel buffer *)

(** C7: one transport read delivers [3:abc,2:xy,] and the transport has
    nothing more: every later [recv] times out or meets the end of the
    stream. The first call of [inner] on that channel returns [abc] and
    leaves [2:xy,] in the channel's buffer; the next call returns [xy] out
    of that buffer and leaves it empty. Each call ends its loop on one
    [recv] that brings nothing; no bytes are read after the first
    segment. *)
Theorem C7_batched_frames (sock : socket) (channel : Z) (w : world)
        (pending : list recv_event) :
  residual channel w = [] ->
  closed (state_of sock w) = false ->
  inbox (state_of sock w) = Segment (b "3:abc,2:xy,") :: pending ->
  forallb delivers_nothing pending = true ->
  exists w1 w2,
    inner sock channel w = (Ret (b "abc"), w1)
    /\ residual channel w1 = b "2:xy,"
    /\ inbox (state_of sock w1) = tl pending
    /\ inner sock channel w1 = (Ret (b "xy"), w2)
    /\ residual channel w2 = []
    /\ inbox (state_of sock w2) = tl (tl pending)
    /\ trace w2 = trace w.
Proof.
  intros Hres Hopen Hin Hquiet. destruct w as [cs ls ss cn dn tr].
  unfold residual in *.
  assert (Hshape :
            pending = [] \/ (exists e1, pending = [e1])
            \/ exists e1 e2 rest, pending = e1 :: e2 :: rest).
  { destruct pending as [|e1 [|e2 rest]]; eauto 6. }
  destruct sock;
    [destruct cs as [i c br] | destruct ls as [i c br]
     | destruct ss as [i c br]];
    simpl in Hopen, Hin; subst i c;
    destruct channel as [|p|p]; simpl in Hres; subst;
    destruct Hshape as [->|[[e1 ->]|(e1 & e2 & rest & ->)]];
    simpl in Hquiet;
    repeat match goal with
           | e : recv_event |- _ => destruct e as [[|? ?]| |]
           end;
    try discriminate Hquiet;
    do 2 eexists; repeat split; lazy; reflexivity.
Qed.

Lemma C7_batched_frames_witness :
  exists w1 w2,
    inner control_channel 0
      (start (connected [Segment (b "3:abc,2:xy,"); TimedOut; TimedOut])
             (connected []))
    = (Ret (b "abc"), w1)
    /\ residual 0 w1 = b "2:xy,"
    /\ inbox (state_of control_channel w1) = tl [TimedOut; TimedOut]
    /\ inner control_channel 0 w1 = (Ret (b "xy"), w2)
    /\ residual 0 w2 = []
    /\ inbox (state_of control_channel w2) = tl (tl [TimedOut; TimedOut])
    /\ trace w2 = [].
Proof.
  apply (C7_batched_frames control_channel 0
           (start (connected [Segment (b "3:abc,2:xy,"); TimedOut; TimedOut])
                  (connected []))
           [TimedOut; TimedOut]);
    reflexivity.
Defined.

(** C4 is right and the code is not: of the message [E a b] only the field
    [a] is sent on and printed as the error text, on the control as on the
    data channel; and an error text that is not UTF-8 is not forwarded at
    all, [inner] raises [UnicodeDecodeError] before anything is sent. *)
Theorem C4_remote_error_text_cut :
  (let '(r, w) :=
     inner control_channel 0
       (start (connected [Segment (b "5:E a b,")]) (connected [])) in
   r = Raise (SystemExit None)
   /\ trace w = [Sent control_channel (b "3:E a,");
                 Printed (u "Error: a");
                 Closed control_channel])
  /\ (let '(r, w) :=
        inner server_socket 1
          (start (connected []) (connected [Segment (b "5:E a b,")])) in
      r = Raise (SystemExit None)
      /\ trace w = [Sent server_socket (b "3:E a,");
                    Printed (u "Error: a");
                    Closed server_socket])
  /\ (let '(r, w) :=
        inner control_channel 0
          (start (connected [Segment (b "3:E " ++ [xff] ++ b ",")])
                 (connected [])) in
      r = Raise UnicodeDecodeError /\ trace w = []).
Proof. repeat split. Qed.

(** C10 is right and the code is not: on the payload [E] alone, [inner]
    indexes the second of one field and raises [IndexError]; nothing is
    sent, printed or closed, and [run] ends with that uncaught exception. *)
Theorem C10_bare_E_raises_IndexError :
  (let '(r, w) :=
     inner control_channel 0
       (start (connected [Segment (b "1:E,")]) (connected [])) in
   r = Raise IndexError /\ trace w = [])
  /\ (let '(r, w) :=
        run sample_decimal sample_space environment
          (u "hello") (u "alice") server_address
          (start (connected (one_by_one [b "1:E,"])) (connected [])) in
      r = Raise IndexError
      /\ exit_status r = Some 1
      /\ trace w = [Sent control_channel (b "13:C GRNVS V:1.0,");
                    Closed control_channel]).
Proof. vm_compute. repeat split. Qed.

(** ** The error routine *)

(** What [send_error] does, in full. *)
Lemma send_error_eq {A} (error : str) (sock : socket) (w : world)
      (m : bytes) :
  encode (u "E " ++ error) = Some m ->
  @send_error A error sock w
  = if closed (state_of sock w) || broken (state_of sock w)
    then (Raise OSError, w)
    else (Raise (SystemExit None),
          log (Closed sock)
            (with_state sock
               {| inbox := inbox (state_of sock w); closed := true;
                  broken := broken (state_of sock w) |}
               (log (Printed (u "Error: " ++ error))
                  (log (Sent sock (netstring_of_bytes m)) w)))).
Proof.
  intros Hm. unfold send_error, bind, lift.
  rewrite (netstring_bytes_of_encode _ _ Hm). unfold ret, sendall.
  destruct (closed (state_of sock w)) eqn:Hc;
    destruct (broken (state_of sock w)) eqn:Hb; cbn [orb]; try reflexivity.
  unfold print, close, sys_exit, raise.
  destruct sock; simpl in *; rewrite ?Hc, ?Hb; reflexivity.
Qed.

Lemma send_error_never_returns {A} (error : str) (sock : socket)
      (w : world) (a : A) :
  fst (@send_error A error sock w) <> Ret a.
Proof.
  unfold send_error, bind, lift.
  destruct (netstring_bytes_of (u "E " ++ error)); [|discriminate].
  unfold ret, sendall.
  destruct (closed (state_of sock w) || broken (state_of sock w));
    [discriminate|].
  unfold print, close.
  match goal with
  | |- context [if ?c then _ else _] => destruct c
  end; discriminate.
Qed.

Lemma bind_ret_inv {A B} (m : M A) (k : A -> M B) (w w' : world) (y : B) :
  bind m k w = (Ret y, w') ->
  exists x w1, m w = (Ret x, w1) /\ k x w1 = (Ret y, w').
Proof.
  unfold bind. destruct (m w) as [[x|e|] w1]; try discriminate. eauto.
Qed.

Lemma send_error_no_ret {A} (error : str) (sock : socket) (w w' : world)
      (a : A) :
  @send_error A error sock w <> (Ret a, w').
Proof.
  intros H. apply (send_error_never_returns error sock w a).
  now rewrite H.
Qed.

Lemma try_send_error_ret {A} (body : M A) (error : str) (sock : socket)
      (w w' : world) (a : A) :
  try_bare body (send_error error sock) w = (Ret a, w') ->
  body w = (Ret a, w').
Proof.
  unfold try_bare. destruct (body w) as [[x|e|] w1]; try discriminate.
  - auto.
  - intros H. now apply send_error_no_ret in H.
Qed.

(** C8 is right and the code is not: [send_error] ends the process with
    [sys.exit()], whose status is 0. In the session where the server
    reports length 4 for the message [hello], the client sends the [E]
    frame, prints the diagnostic, closes the socket and exits with status 0;
    only the path for an empty buffer, which calls [sys.exit(1)], exits
    with a failure status. *)
Theorem C8_failure_exits_with_status_zero :
  (let '(r, w) :=
     run sample_decimal sample_space environment
       (u "hello") (u "alice") server_address
       (start (connected (control_script (b "3:S 4,")))
              (connected server_script)) in
   r = Raise (SystemExit None)
   /\ exit_status r = Some 0
   /\ trace w = [Sent control_channel (b "13:C GRNVS V:1.0,");
                 Sent control_channel (b "7:C alice,");
                 Sent control_channel (b "7:C 40000,");
                 Sent server_socket (b "7:D alice,");
                 Sent server_socket (b "7:D hello,");
                 Closed server_socket;
                 Closed data_channel;
                 Sent control_channel
                   (b "38:E wrong message length: 4, expected: 5,");
                 Printed (u "Error: wrong message length: 4, expected: 5");
                 Closed control_channel])
  /\ (let '(r, w) :=
        run sample_decimal sample_space environment
          (u "hello") (u "alice") server_address
          (start (connected []) (connected [])) in
      r = Raise (SystemExit (Some 1))
      /\ exit_status r = Some 1
      /\ trace w = [Sent control_channel (b "13:C GRNVS V:1.0,");
                    Sent control_channel (b "23:E no netstring received,");
                    Printed (u "Error: no netstring received");
                    Closed control_channel]).
Proof. vm_compute. repeat split. Qed.

(** C9, as the code has it: [send_error] first sends the [E] frame. When
    that succeeds it prints the diagnostic, closes the socket and exits;
    when the send raises (the socket is closed or the connection is gone)
    the exception leaves [send_error] at once and the world is as before:
    nothing is printed and nothing is closed. The path of [inner] for an
    empty buffer does the same with [sys.exit(1)], however the loop met
    the lack of data: a timeout, the end of the stream or a transport that
    stays silent. *)
Theorem C9_send_error_outcomes (error : str) (sock : socket) (w : world)
        (m : bytes) :
  encode (u "E " ++ error) = Some m ->
  (let '(r, w') := @send_error unit error sock w in
   if closed (state_of sock w) || broken (state_of sock w)
   then r = Raise OSError /\ w' = w
   else r = Raise (SystemExit None)
        /\ trace w' = trace w ++ [Sent sock (netstring_of_bytes m);
                                  Printed (u "Error: " ++ error);
                                  Closed sock]
        /\ closed (state_of sock w') = true)
  /\ forall channel,
      residual channel w = [] ->
      closed (state_of sock w) = false ->
      reset_first (inbox (state_of sock w)) = false ->
      delivered (inbox (state_of sock w)) = [] ->
      let '(r, w') := inner sock channel w in
      inbox (state_of sock w') = after_stop (inbox (state_of sock w))
      /\ if broken (state_of sock w)
         then r = Raise OSError /\ trace w' = trace w
                /\ closed (state_of sock w') = false
         else r = Raise (SystemExit (Some 1))
              /\ trace w' = trace w
                   ++ [Sent sock (b "23:E no netstring received,");
                       Printed (u "Error: no netstring received");
                       Closed sock]
              /\ closed (state_of sock w') = true.
Proof.
  intros Hm. split.
  - rewrite (send_error_eq error sock w m Hm).
    destruct (closed (state_of sock w) || broken (state_of sock w)).
    + split; reflexivity.
    + repeat split.
      * destruct sock; simpl; now rewrite <- !app_assoc.
      * destruct sock; reflexivity.
  - intros channel Hres Hcl Hreset Hdel.
    rewrite (inner_open sock channel w Hcl), Hreset, Hres, Hdel.
    cbn [app]. unfold inner_after_recv, bind, lift, sendall.
    change (netstring_bytes_of (u "E " ++ u "no netstring received"))
      with (Some (b "23:E no netstring received,")).
    cbn [ret]. rewrite state_of_with_inbox. cbn [closed broken].
    rewrite Hcl. cbn [orb].
    destruct (broken (state_of sock w)) eqn:Hbr.
    + rewrite state_of_with_inbox. cbn [inbox closed].
      repeat split; [destruct sock; reflexivity | assumption].
    + unfold print, close, sys_exit, raise.
      destruct w as [cs ls ss cn dn tr].
      destruct sock; cbn in Hcl |- *; rewrite Hcl; cbn;
        repeat split; now rewrite <- ?app_assoc.
Qed.

Lemma C9_send_error_outcomes_witness :
  (let '(r, w') :=
     @send_error unit (u "no") control_channel
       (start (connected [TimedOut]) (connected [])) in
   if closed (state_of control_channel
                (start (connected [TimedOut]) (connected [])))
      || broken (state_of control_channel
                   (start (connected [TimedOut]) (connected [])))
   then r = Raise OSError
        /\ w' = start (connected [TimedOut]) (connected [])
   else r = Raise (SystemExit None)
        /\ trace w' = trace (start (connected [TimedOut]) (connected []))
                      ++ [Sent control_channel
                            (netstring_of_bytes (b "E no"));
                          Printed (u "Error: " ++ u "no");
                          Closed control_channel]
        /\ closed (state_of control_channel w') = true)
  /\ forall channel,
      residual channel (start (connected [TimedOut]) (connected [])) = [] ->
      closed (state_of control_channel
                (start (connected [TimedOut]) (connected []))) = false ->
      reset_first (inbox (state_of control_channel
                            (start (connected [TimedOut]) (connected []))))
      = false ->
      delivered (inbox (state_of control_channel
                          (start (connected [TimedOut]) (connected []))))
      = [] ->
      let '(r, w') :=
        inner control_channel channel
          (start (connected [TimedOut]) (connected [])) in
      inbox (state_of control_channel w')
      = after_stop (inbox (state_of control_channel
                             (start (connected [TimedOut]) (connected []))))
      /\ if broken (state_of control_channel
                      (start (connected [TimedOut]) (connected [])))
         then r = Raise OSError
              /\ trace w' = trace (start (connected [TimedOut])
                                         (connected []))
              /\ closed (state_of control_channel w') = false
         else r = Raise (SystemExit (Some 1))
              /\ trace w' = trace (start (connected [TimedOut])
                                         (connected []))
                   ++ [Sent control_channel
                         (b "23:E no netstring received,");
                       Printed (u "Error: no netstring received");
                       Closed control_channel]
              /\ closed (state_of control_channel w') = true.
Proof.
  apply (C9_send_error_outcomes (u "no") control_channel
           (start (connected [TimedOut]) (connected [])) (b "E no")).
  reflexivity.
Defined.

(** C9 as stated fails: the server connects to the listener, sends a wrong
    greeting and drops the connection. The client detects the wrong
    greeting, but the send of its [E] frame raises [OSError]: the
    diagnostic is never printed, the accepted socket is not closed by the
    client, and the process ends with the uncaught [OSError] instead. *)
Lemma C9_failed_notice_hides_diagnostic :
  let '(r, w) :=
    run sample_decimal sample_space environment
      (u "hello") (u "alice") server_address
      (start (connected (control_script (b "3:S 5,")))
             (gone [Segment (b "7:T WRONG,")])) in
  r = Raise OSError
  /\ trace w = [Sent control_channel (b "13:C GRNVS V:1.0,");
                Sent control_channel (b "7:C alice,");
                Sent control_channel (b "7:C 40000,");
                Closed data_channel;
                Closed control_channel].
Proof. vm_compute. repeat split. Qed.

(** ** The data channel *)

Lemma try_bare_ret {A} (body handler : M A) (w : world) (a : A) :
  fst (try_bare body handler w) = Ret a ->
  fst (body w) = Ret a \/ exists w', fst (handler w') = Ret a.
Proof.
  unfold try_bare. destruct (body w) as [[x|e|] w1]; cbn [fst]; eauto;
    discriminate.
Qed.

(** For a token without a blank the check of lines 138-145 lets through the
    reply [T <token>] and no other. *)
Lemma token_reply_without_space (data token : bytes) (w : world) :
  ~ In " "%byte token ->
  fst (check_token_reply data token w) = Ret tt <-> data = b "T " ++ token.
Proof.
  intros Hblank. unfold check_token_reply. split.
  - intros H. apply try_bare_ret in H as [H|[w' H]];
      [|now apply send_error_never_returns in H].
    unfold bind, lift, bsplit in H.
    destruct (split Byte.eqb " "%byte None data)
      as [|begin [|received_token [|z t]]] eqn:S; try discriminate H.
    cbn [unpack2 ret] in H.
    destruct (bytes_eqb begin (b "E"));
      [now apply send_error_never_returns in H|].
    destruct (bytes_eqb begin (b "T")) eqn:Hb;
      destruct (bytes_eqb received_token token) eqn:Ht;
      try discriminate H.
    apply bytes_eqb_spec in Hb, Ht. subst.
    now apply (split_two_inv Byte.eqb byte_eqb_spec) in S.
  - intros ->. unfold try_bare, bind, lift, bsplit.
    change (b "T " ++ token) with (b "T" ++ " "%byte :: token).
    rewrite (split_all_two Byte.eqb byte_eqb_spec)
      by (try assumption; intros [H|[]]; discriminate H).
    cbn [unpack2 ret]. change (bytes_eqb (b "T") (b "E")) with false.
    change (bytes_eqb (b "T") (b "T")) with true.
    rewrite bytes_eqb_refl. reflexivity.
Qed.

(** C3 is right and the code is not: when the control token is [tok 23],
    which holds a space, the reply [T tok 23] on the data channel is split
    into three fields and refused; the message is never sent. *)
Theorem C3_token_with_space_refused :
  let '(r, w) :=
    run sample_decimal sample_space environment
      (u "hello") (u "alice") server_address
      (start (connected (one_by_one [b "13:S GRNVS V:1.0,";
                                     b "8:S tok 23,"]))
             (connected (one_by_one [b "13:T GRNVS V:1.0,";
                                     b "8:T tok 23,"]))) in
  r = Raise (SystemExit None)
  /\ trace w = [Sent control_channel (b "13:C GRNVS V:1.0,");
                Sent control_channel (b "7:C alice,");
                Sent control_channel (b "7:C 40000,");
                Sent server_socket (b "7:D alice,");
                Sent server_socket
                  (b "52:E invalid message: b'T tok 23', expected T b'tok 23',");
                Printed
                  (u "Error: invalid message: b'T tok 23', expected T b'tok 23'");
                Closed server_socket;
                Closed data_channel;
                Closed control_channel].
Proof. vm_compute. repeat split. Qed.

(** ** The confirmation phase *)

Lemma decimal_ascii (z : Z) : forallb is_ascii (decimal z) = true.
Proof.
  unfold decimal. destruct (z <? 0).
  - cbn [forallb]. rewrite digits_are_ascii by apply digits_of_N_spec.
    reflexivity.
  - apply digits_are_ascii, digits_of_N_spec.
Qed.

Lemma encode_str_of_int (z : Z) : encode (str_of_int z) = Some (decimal z).
Proof. apply encode_ascii, decimal_ascii. Qed.




Lemma to_N_byte_of (c : N) : (c <= 255)%N -> Byte.to_N (byte_of c) = c.
Proof.
  intros Hc. unfold byte_of. destruct (Byte.of_N c) as [x|] eqn:E.
  - now apply Byte.to_of_N.
  - apply Byte.of_N_None_iff in E. lia.
Qed.

(** The [$] of the pattern: the end of the text, or one newline that ends
    it. *)
Lemma dollar_inv (s : str) :
  match s with
  | [] => true
  | [10%N] => true
  | _ => false
  end = true ->
  s = [] \/ s = [10%N].
Proof.
  destruct s as [|x [|y t]]; intros H; [now left | right | exfalso];
    (destruct x as [|p]; [discriminate|]);
    do 4 (try destruct p as [p|p|]; try discriminate).
  reflexivity.
Qed.

Section MsglenField.
Variable unicode_decimal : codepoint -> option N.
Variable unicode_space : codepoint -> bool.

Lemma ascii_digit_byte (c : codepoint) :
  is_ascii_digit c = true ->
  (c <? 127)%N = true /\ (c <? 128)%N = true
  /\ is_digit (byte_of c) = true
  /\ digit_val (byte_of c) = Z.of_N c - 48.
Proof.
  unfold is_ascii_digit, is_digit, digit_val. intros H.
  apply andb_true_iff in H as [H1 H2].
  apply N.leb_le in H1, H2. rewrite to_N_byte_of by lia.
  repeat split; try (apply N.ltb_lt; lia).
  apply andb_true_iff. split; apply N.leb_le; lia.
Qed.

Lemma skip_digits_all (s : str) :
  forallb is_ascii_digit s = true -> skip_digits unicode_decimal s = [].
Proof.
  induction s as [|c r IH]; simpl; intros H; [reflexivity|].
  apply andb_true_iff in H as [Hc Hr]. unfold re_digit.
  destruct (ascii_digit_byte c Hc) as (_ & H128 & _).
  rewrite H128. unfold is_ascii_digit in Hc. rewrite Hc. now apply IH.
Qed.

Lemma re_match_pattern_digits (field : str) :
  forallb is_ascii_digit field = true ->
  re_match_pattern unicode_decimal field = leading_nonzero field.
Proof.
  destruct field as [|c r]; simpl; intros H; [reflexivity|].
  apply andb_true_iff in H as [Hc Hr]. rewrite (skip_digits_all r Hr).
  rewrite andb_true_r. unfold is_ascii_digit in Hc.
  apply andb_true_iff in Hc as [H1 H2]. apply N.leb_le in H1, H2.
  destruct (c =? 48)%N eqn:E.
  - apply N.eqb_eq in E. subst c. reflexivity.
  - apply N.eqb_neq in E. simpl. apply andb_true_iff.
    split; apply N.leb_le; lia.
Qed.

Lemma to_ascii_digits (field : str) :
  forallb is_ascii_digit field = true ->
  to_ascii unicode_decimal unicode_space field = Some (map byte_of field)
  /\ forallb is_digit (map byte_of field) = true
  /\ forall acc,
      fold_left (fun a c => 10 * a + digit_val c) (map byte_of field) acc
      = fold_left (fun a c => 10 * a + (Z.of_N c - 48)) field acc.
Proof.
  induction field as [|c r IH]; simpl; intros H; [repeat split|].
  apply andb_true_iff in H as [Hc Hr].
  destruct (IH Hr) as (Ha & Hd & Hv).
  destruct (ascii_digit_byte c Hc) as (H127 & _ & Hdig & Hval).
  rewrite H127, Ha, Hdig, Hd. repeat split.
  intros acc. rewrite Hval. apply Hv.
Qed.

Lemma to_ascii_app (s1 s2 : str) :
  to_ascii unicode_decimal unicode_space (s1 ++ s2)
  = match to_ascii unicode_decimal unicode_space s1,
          to_ascii unicode_decimal unicode_space s2 with
    | Some x, Some y => Some (x ++ y)
    | _, _ => None
    end.
Proof.
  induction s1 as [|c r IH]; simpl.
  - now destruct (to_ascii unicode_decimal unicode_space s2).
  - rewrite IH.
    destruct (if (c <? 127)%N then Some (byte_of c)
              else if unicode_space c then Some " "%byte
                   else option_map digit_byte (unicode_decimal c));
      [|reflexivity].
    destruct (to_ascii unicode_decimal unicode_space r);
      [|reflexivity].
    now destruct (to_ascii unicode_decimal unicode_space s2).
Qed.

(** A field of ASCII digits stands for its decimal value. *)
Lemma msglen_value_ascii (field : str) :
  forallb is_ascii_digit field = true ->
  msglen_value unicode_decimal field = decimal_value field.
Proof.
  intros H. unfold msglen_value, digits_value, decimal_value.
  assert (E : map (ascii_digit_of unicode_decimal) field
              = map byte_of field).
  { apply map_ext_in. intros c Hin. rewrite forallb_forall in H.
    destruct (ascii_digit_byte c (H c Hin)) as (_ & H128 & _).
    unfold ascii_digit_of. now rewrite H128. }
  rewrite E. now apply to_ascii_digits.
Qed.

(** *** The pattern *)

Lemma strict_decimal_re_digits (digits : str) :
  strict_decimal unicode_decimal digits = true ->
  digits <> [] /\ forallb (re_digit unicode_decimal) digits = true.
Proof.
  destruct digits as [|c r]; [discriminate|].
  cbn [strict_decimal forallb]. intros H.
  apply andb_true_iff in H as [Hc Hr]. split; [discriminate|].
  rewrite Hr, andb_true_r. unfold re_digit.
  apply andb_true_iff in Hc as [H1 H2]. apply N.leb_le in H1, H2.
  assert (E : (c <? 128)%N = true) by (apply N.ltb_lt; lia).
  rewrite E. apply andb_true_iff. split; apply N.leb_le; lia.
Qed.

Lemma skip_digits_app (ds nl : str) :
  forallb (re_digit unicode_decimal) ds = true ->
  nl = [] \/ nl = [10%N] ->
  skip_digits unicode_decimal (ds ++ nl) = nl.
Proof.
  intros Hds Hnl. induction ds as [|c r IH]; cbn [app].
  - destruct Hnl as [->| ->]; reflexivity.
  - cbn [forallb] in Hds. apply andb_true_iff in Hds as [Hc Hr].
    cbn [skip_digits]. rewrite Hc. now apply IH.
Qed.

Lemma skip_digits_split (s : str) :
  exists ds,
    s = ds ++ skip_digits unicode_decimal s
    /\ forallb (re_digit unicode_decimal) ds = true.
Proof.
  induction s as [|c r (ds & Hr & Hds)]; [exists []; split; reflexivity|].
  cbn [skip_digits]. destruct (re_digit unicode_decimal c) eqn:Hc.
  - exists (c :: ds). split; [cbn [app]; now f_equal|].
    cbn [forallb]. now rewrite Hc.
  - exists []. split; reflexivity.
Qed.

Lemma re_match_pattern_inv (field : str) :
  re_match_pattern unicode_decimal field = true ->
  exists digits nl,
    field = digits ++ nl
    /\ strict_decimal unicode_decimal digits = true
    /\ (nl = [] \/ nl = [10%N]).
Proof.
  destruct field as [|c r]; [discriminate|]. cbn [re_match_pattern].
  intros H. apply andb_true_iff in H as [Hc Hm]. apply dollar_inv in Hm.
  destruct (skip_digits_split r) as (ds & Hr & Hds).
  exists (c :: ds), (skip_digits unicode_decimal r).
  split; [cbn [app]; now f_equal|]. split; [|exact Hm].
  cbn [strict_decimal]. now rewrite Hc, Hds.
Qed.

Lemma re_match_pattern_grammar (digits nl : str) :
  strict_decimal unicode_decimal digits = true ->
  nl = [] \/ nl = [10%N] ->
  re_match_pattern unicode_decimal (digits ++ nl) = true.
Proof.
  destruct digits as [|c r]; [discriminate|].
  cbn [strict_decimal app re_match_pattern]. intros H Hnl.
  apply andb_true_iff in H as [Hc Hr].
  rewrite Hc, (skip_digits_app r nl Hr Hnl).
  destruct Hnl as [->| ->]; reflexivity.
Qed.

(** A text that [string_to_int] accepts holds no blank. *)
Lemma accepted_has_no_blank (field : str) (n : Z) :
  string_to_int unicode_decimal unicode_space field = Ret (Some n) ->
  ~ In 32%N field.
Proof.
  intros H.
  assert (Hm : re_match_pattern unicode_decimal field = true).
  { unfold string_to_int in H.
    destruct (re_match_pattern unicode_decimal field);
      [reflexivity | discriminate]. }
  destruct (re_match_pattern_inv _ Hm) as (digits & nl & -> & Hs & Hnl).
  destruct (strict_decimal_re_digits _ Hs) as (_ & Hds).
  intros Hin. apply in_app_or in Hin as [Hin|Hin].
  - rewrite forallb_forall in Hds. apply Hds in Hin. discriminate Hin.
  - destruct Hnl as [->| ->]; [contradiction|].
    destruct Hin as [E|[]]. discriminate E.
Qed.

(** *** The reply [S <msglen>] *)

Lemma parse_msglen_ret (data : str) (msglen : Z) (w w' : world) :
  parse_msglen unicode_decimal unicode_space data w = (Ret msglen, w') ->
  w' = w
  /\ exists field,
      unpack2 (ssplit 32%N None data) = Some (u "S", field)
      /\ string_to_int unicode_decimal unicode_space field
         = Ret (Some msglen).
Proof.
  unfold parse_msglen. intros H. apply try_send_error_ret in H.
  apply bind_ret_inv in H as ([begin field] & w1 & H1 & H).
  unfold lift in H1.
  destruct (unpack2 (ssplit 32%N None data)) as [[x y]|] eqn:E;
    [|discriminate].
  injection H1 as -> -> <-.
  destruct (str_eqb begin (u "S")) eqn:Hb; [|discriminate].
  apply str_eqb_spec in Hb. subst begin. cbn [negb] in H.
  apply bind_ret_inv in H as (r & w2 & H2 & H).
  injection H2 as H2 <-.
  destruct r as [n|]; [|discriminate]. injection H as <- <-.
  split; [reflexivity|]. exists field. split; [reflexivity | now symmetry].
Qed.

Lemma parse_msglen_accepts (data : str) (n : Z) (w : world) :
  fst (parse_msglen unicode_decimal unicode_space data w) = Ret n
  <-> exists field,
      data = u "S " ++ field
      /\ string_to_int unicode_decimal unicode_space field = Ret (Some n).
Proof.
  split.
  - intros H.
    destruct (parse_msglen unicode_decimal unicode_space data w)
      as [r w'] eqn:E.
    cbn [fst] in H. subst r.
    apply parse_msglen_ret in E as (_ & field & Hsplit & Hint).
    exists field. split; [|exact Hint].
    destruct (ssplit 32%N None data) as [|x [|y [|z t]]] eqn:S;
      cbn [unpack2] in Hsplit; try discriminate Hsplit.
    injection Hsplit as -> ->. unfold ssplit in S.
    now apply (split_two_inv N.eqb N.eqb_eq) in S.
  - intros (field & -> & Hint).
    pose proof (accepted_has_no_blank _ _ Hint) as Hblank.
    unfold parse_msglen, try_bare, bind, lift, ssplit.
    change (u "S " ++ field) with (u "S" ++ 32%N :: field).
    rewrite (split_all_two N.eqb N.eqb_eq)
      by (try assumption; intros [E|[]]; discriminate E).
    cbn [unpack2 ret]. change (str_eqb (u "S") (u "S")) with true.
    cbn [negb]. rewrite Hint. reflexivity.
Qed.

(** *** What [int()] makes of a text the pattern has matched *)

Section Consistent.

(** In the Unicode database no decimal digit is white space. *)
Hypothesis digits_are_not_spaces :
  forall c, (128 <= c)%N ->
            unicode_decimal c <> None -> unicode_space c = false.

Lemma to_ascii_re_digits (ds : str) :
  forallb (re_digit unicode_decimal) ds = true ->
  to_ascii unicode_decimal unicode_space ds
  = Some (map (ascii_digit_of unicode_decimal) ds)
  /\ forallb is_digit (map (ascii_digit_of unicode_decimal) ds) = true.
Proof.
  induction ds as [|c r IH]; cbn [to_ascii map forallb]; intros H;
    [split; reflexivity|].
  apply andb_true_iff in H as [Hc Hr]. destruct (IH Hr) as (Ha & Hd).
  rewrite Ha, Hd. unfold ascii_digit_of. unfold re_digit in Hc.
  destruct (c <? 128)%N eqn:E128.
  - destruct (ascii_digit_byte c Hc) as (H127 & _ & Hdig & _).
    rewrite H127, Hdig. split; reflexivity.
  - apply N.ltb_ge in E128.
    assert (H127 : (c <? 127)%N = false) by (apply N.ltb_ge; lia).
    rewrite H127.
    destruct (unicode_decimal c) as [d|] eqn:Ed; [|discriminate].
    rewrite (digits_are_not_spaces c E128) by (rewrite Ed; discriminate).
    cbn [option_map]. rewrite is_digit_digit_byte. split; reflexivity.
Qed.

Lemma string_to_int_grammar (digits nl : str) :
  strict_decimal unicode_decimal digits = true ->
  nl = [] \/ nl = [10%N] ->
  string_to_int unicode_decimal unicode_space (digits ++ nl)
  = if (int_max_str_digits <? List.length digits)%nat
    then Raise ValueError
    else Ret (Some (msglen_value unicode_decimal digits)).
Proof.
  intros Hs Hnl. unfold string_to_int.
  rewrite (re_match_pattern_grammar _ _ Hs Hnl). cbn [negb].
  destruct (strict_decimal_re_digits _ Hs) as (Hne & Hds).
  destruct (to_ascii_re_digits _ Hds) as (Ha & Hd).
  unfold int_of_str. rewrite to_ascii_app, Ha.
  assert (Htail : exists tail,
             to_ascii unicode_decimal unicode_space nl = Some tail
             /\ (tail = [] \/ tail = [byte_of 10])).
  { destruct Hnl as [->| ->]; [exists [] | exists [byte_of 10]];
      split; auto. }
  destruct Htail as (tail & -> & Htail).
  rewrite (int_of_bytes_digits_then _ tail Hd); [| |exact Htail].
  - rewrite length_map. unfold msglen_value.
    now destruct (int_max_str_digits <? List.length digits)%nat.
  - destruct digits; [congruence | discriminate].
Qed.

Lemma string_to_int_accepts (field : str) (n : Z) :
  string_to_int unicode_decimal unicode_space field = Ret (Some n)
  <-> exists digits,
      (field = digits \/ field = digits ++ [10%N])
      /\ strict_decimal unicode_decimal digits = true
      /\ (List.length digits <= int_max_str_digits)%nat
      /\ n = msglen_value unicode_decimal digits.
Proof.
  split.
  - intros H.
    assert (Hm : re_match_pattern unicode_decimal field = true).
    { unfold string_to_int in H.
      destruct (re_match_pattern unicode_decimal field);
        [reflexivity | discriminate]. }
    destruct (re_match_pattern_inv _ Hm) as (digits & nl & -> & Hs & Hnl).
    rewrite (string_to_int_grammar _ _ Hs Hnl) in H.
    destruct (int_max_str_digits <? List.length digits)%nat eqn:E;
      [discriminate|].
    apply Nat.ltb_ge in E. injection H as <-.
    exists digits. split; [|auto].
    destruct Hnl as [->| ->]; [left; apply app_nil_r | now right].
  - intros (digits & Hf & Hs & Hlen & ->).
    assert (Hshape : exists nl,
               field = digits ++ nl /\ (nl = [] \/ nl = [10%N])).
    { destruct Hf as [->| ->];
        [exists []; rewrite app_nil_r | exists [10%N]]; auto. }
    destruct Hshape as (nl & -> & Hnl).
    rewrite (string_to_int_grammar _ _ Hs Hnl).
    destruct (int_max_str_digits <? List.length digits)%nat eqn:E;
      [apply Nat.ltb_lt in E; lia | reflexivity].
Qed.

End Consistent.

(** C5, as the code has it: [string_to_int] accepts a [msglen] field
    exactly when it is one of the digits 1 to 9 followed by characters that
    [\d] matches, at most 4300 characters in all, with nothing after them
    or one newline; the field then stands for the number these digits
    write, which for ASCII digits is their decimal value. The reply of the
    confirmation phase is parsed to a number exactly when it is [S], one
    blank and such a field. The single digit [0] is not in the grammar, and
    the reply [S 0] is refused. The grammar is not the one of frame
    lengths: [1_0] is read as the length of a frame and is no [msglen]. *)
Theorem C5_msglen_grammar (data field : str) (n : Z) (w : world) :
  (forall c, (128 <= c)%N ->
             unicode_decimal c <> None -> unicode_space c = false) ->
  (string_to_int unicode_decimal unicode_space field = Ret (Some n)
   <-> exists digits,
       (field = digits \/ field = digits ++ [10%N])
       /\ strict_decimal unicode_decimal digits = true
       /\ (List.length digits <= int_max_str_digits)%nat
       /\ n = msglen_value unicode_decimal digits)
  /\ (fst (parse_msglen unicode_decimal unicode_space data w) = Ret n
      <-> exists msglen,
          data = u "S " ++ msglen
          /\ string_to_int unicode_decimal unicode_space msglen
             = Ret (Some n))
  /\ (forallb is_ascii_digit field = true ->
      msglen_value unicode_decimal field = decimal_value field)
  /\ string_to_int unicode_decimal unicode_space (u "0") = Ret None
  /\ (forall v,
      fst (parse_msglen unicode_decimal unicode_space (u "S 0") w)
      <> Ret v)
  /\ string_to_int unicode_decimal unicode_space (u "1_0") = Ret None
  /\ inner_decode (b "1_0:0123456789,") = inr (b "0123456789", []).
Proof.
  intros Hdb. split; [now apply string_to_int_accepts|].
  split; [apply parse_msglen_accepts|].
  split; [apply msglen_value_ascii|]. split; [reflexivity|].
  split; [|split; reflexivity].
  intros v Hv. apply parse_msglen_accepts in Hv as (f & Hf & Hint).
  injection Hf as <-. discriminate Hint.
Qed.

End MsglenField.

Lemma C5_msglen_grammar_witness :
  (string_to_int sample_decimal sample_space (u "512") = Ret (Some 512)
   <-> exists digits,
       (u "512" = digits \/ u "512" = digits ++ [10%N])
       /\ strict_decimal sample_decimal digits = true
       /\ (List.length digits <= int_max_str_digits)%nat
       /\ 512 = msglen_value sample_decimal digits)
  /\ (fst (parse_msglen sample_decimal sample_space (u "S 512")
             (start (connected []) (connected []))) = Ret 512
      <-> exists msglen,
          u "S 512" = u "S " ++ msglen
          /\ string_to_int sample_decimal sample_space msglen
             = Ret (Some 512))
  /\ (forallb is_ascii_digit (u "512") = true ->
      msglen_value sample_decimal (u "512") = decimal_value (u "512"))
  /\ string_to_int sample_decimal sample_space (u "0") = Ret None
  /\ (forall v,
      fst (parse_msglen sample_decimal sample_space (u "S 0")
             (start (connected []) (connected [])))
      <> Ret v)
  /\ string_to_int sample_decimal sample_space (u "1_0") = Ret None
  /\ inner_decode (b "1_0:0123456789,") = inr (b "0123456789", []).
Proof.
  apply (C5_msglen_grammar sample_decimal sample_space (u "S 512")
           (u "512") 512 (start (connected []) (connected []))).
  intros c Hc Hd. unfold sample_space.
  destruct (c =? 160)%N eqn:E1;
    [apply N.eqb_eq in E1; subst c; exfalso; apply Hd; reflexivity|].
  destruct (c =? 12288)%N eqn:E2;
    [apply N.eqb_eq in E2; subst c; exfalso; apply Hd; reflexivity|].
  reflexivity.
Defined.

(** C5 as stated fails: the single digit [0] is not in the grammar of
    [string_to_int], and for an empty message the reply [S 0] is refused as
    an invalid message before any comparison of lengths. *)
Lemma C5_reply_S0_refused :
  string_to_int sample_decimal sample_space (u "0") = Ret None
  /\ (let '(r, w) :=
        run_confirmation sample_decimal sample_space [] (b "dtokABC")
          (start (connected [Segment (b "3:S 0,")]) (connected [])) in
      r = Raise (SystemExit None)
      /\ trace w
         = [Sent control_channel
              (b "43:E invalid message: S 0, expected S <msglen>,");
            Printed (u "Error: invalid message: S 0, expected S <msglen>");
            Closed control_channel]).
Proof. vm_compute. repeat split. Qed.

End Properties.

(* ================================================================== *)
(** * Further properties of the client *)
(* ================================================================== *)

Module Laws.
Import Py Eff Client Scenario Stream PyFacts Properties.

(** ** The framing decoder *)

Lemma split_limit_one_none {A} (eqb : A -> A -> bool) (sep : A)
      (l : list A) :
  (forall x y, eqb x y = true <-> x = y) ->
  ~ In sep l -> split eqb sep (Some 1%nat) l = [l].
Proof.
  intros Hspec. induction l as [|c r IH]; simpl; intros Hnot;
    [reflexivity|].
  destruct (eqb c sep) eqn:E.
  - apply Hspec in E. subst c. exfalso. apply Hnot. now left.
  - simpl. rewrite IH by (intro H; apply Hnot; now right). reflexivity.
Qed.

Lemma first_occurrence (sep : byte) (l : bytes) :
  In sep l -> exists pre post, l = pre ++ sep :: post /\ ~ In sep pre.
Proof.
  induction l as [|c r IH]; simpl; intros H; [contradiction|].
  destruct (Byte.byte_eq_dec c sep) as [->|Hne].
  - exists [], r. split; [reflexivity | intros []].
  - destruct H as [H|H]; [contradiction|].
    destruct (IH H) as (pre & post & -> & Hpre).
    exists (c :: pre), post. split; [reflexivity|].
    intros [E|E]; [contradiction | now apply Hpre].
Qed.

(** What [inner_decode] does once the buffer is cut at its first colon. *)
Lemma inner_decode_cut (field data : bytes) :
  ~ In ":"%byte field ->
  inner_decode (field ++ ":"%byte :: data)
  = if startswith "0"%byte field || startswith "+"%byte field
    then inl startswith_0_or_plus
    else
      match int_of_bytes field with
      | None => inl invalid_length
      | Some n =>
          if (len data <? n + 1)
             || negb (bytes_eqb (slice (Some n) (Some (n + 1)) data)
                        (b ","))
          then inl no_comma
          else inr (slice None (Some n) data,
                    if len data >? n + 1
                    then slice (Some (n + 1)) None data else [])
      end.
Proof.
  intros Hcolon. unfold inner_decode, bsplit.
  now rewrite (split_first Byte.eqb byte_eqb_spec) by assumption.
Qed.

Lemma inner_decode_no_colon (netstrings : bytes) :
  inner_decode netstrings = inl no_colon <-> ~ In ":"%byte netstrings.
Proof.
  split.
  - intros H Hin. destruct (first_occurrence _ _ Hin)
      as (field & data & -> & Hfield).
    rewrite (inner_decode_cut field data Hfield) in H.
    destruct (startswith "0"%byte field || startswith "+"%byte field);
      [discriminate|].
    destruct (int_of_bytes field); [|discriminate].
    match type of H with
    | (if ?c then _ else _) = _ => destruct c
    end; discriminate.
  - intros Hnot. unfold inner_decode, bsplit.
    now rewrite (split_limit_one_none Byte.eqb ":"%byte netstrings
                   byte_eqb_spec Hnot).
Qed.

(** X1: The decoder reports a missing colon exactly for the buffers that hold
    no colon at all. *)
Theorem no_colon_iff (netstrings : bytes) :
  inner_decode netstrings = inl no_colon <-> ~ In ":"%byte netstrings.
Proof. apply inner_decode_no_colon. Qed.

Lemma slice_in_range {A} (lo hi : Z) (l : list A) :
  0 <= lo -> lo <= hi -> hi <= len l ->
  slice (Some lo) (Some hi) l
  = firstn (Z.to_nat (hi - lo)) (skipn (Z.to_nat lo) l).
Proof.
  intros H0 H1 H2. unfold slice, clamp_index.
  destruct (lo <? 0) eqn:E; [apply Z.ltb_lt in E; lia|].
  destruct (hi <? 0) eqn:E'; [apply Z.ltb_lt in E'; lia|].
  now rewrite !Z.min_l by lia.
Qed.

Lemma firstn_one_skipn {A} (k : nat) (l : list A) (c : A) :
  firstn 1 (skipn k l) = [c] ->
  (k < List.length l)%nat /\ skipn k l = c :: skipn (S k) l.
Proof.
  intros H. destruct (skipn k l) as [|x t] eqn:E; [discriminate H|].
  simpl in H. injection H as ->. split.
  - assert (Hl : List.length (skipn k l) = S (List.length t))
      by now rewrite E.
    rewrite length_skipn in Hl. lia.
  - f_equal. replace (S k) with (1 + k)%nat by lia.
    now rewrite <- skipn_skipn, E.
Qed.

(** The three slices of lines 98-105 when the one in the middle is a single
    byte: they cut the data at one position [k], which is the length read
    from the field, or counts from the end when that length is negative. *)
Lemma slice_comma_inv (n : Z) (data : bytes) (c : byte) :
  slice (Some n) (Some (n + 1)) data = [c] ->
  exists k : nat,
    (k < List.length data)%nat
    /\ skipn k data = c :: skipn (S k) data
    /\ slice None (Some n) data = firstn k data
    /\ (if len data >? n + 1 then slice (Some (n + 1)) None data else [])
       = skipn (S k) data
    /\ (0 <= n -> Z.of_nat k = n)
    /\ (n < 0 -> Z.of_nat k = len data + n).
Proof.
  unfold slice, clamp_index. intros H.
  assert (HL : len data = Z.of_nat (List.length data)) by reflexivity.
  set (L := len data) in *.
  assert (Hrest : forall k : nat,
             (k < List.length data)%nat ->
             n <> -1 ->
             Z.of_nat k = (if n <? 0 then L + n else n) ->
             (if L >? n + 1
              then firstn
                     (Z.to_nat
                        (L - (if n + 1 <? 0 then Z.max (n + 1 + L) 0
                              else Z.min (n + 1) L)))
                     (skipn
                        (Z.to_nat
                           (if n + 1 <? 0 then Z.max (n + 1 + L) 0
                            else Z.min (n + 1) L)) data)
              else [])
             = skipn (S k) data).
  { intros k Hk Hn Hkn. rewrite Z.gtb_ltb.
    destruct (n <? 0) eqn:En;
      [apply Z.ltb_lt in En | apply Z.ltb_ge in En];
      (destruct (n + 1 <? 0) eqn:E1;
       [apply Z.ltb_lt in E1 | apply Z.ltb_ge in E1]);
      (destruct (n + 1 <? L) eqn:E2;
       [apply Z.ltb_lt in E2 | apply Z.ltb_ge in E2]);
      try lia.
    - replace (Z.to_nat (Z.max (n + 1 + L) 0)) with (S k) by lia.
      apply firstn_all2. rewrite length_skipn. lia.
    - replace (Z.to_nat (Z.min (n + 1) L)) with (S k) by lia.
      apply firstn_all2. rewrite length_skipn. lia.
    - symmetry. apply skipn_all2. lia. }
  destruct (n <? 0) eqn:En;
    [apply Z.ltb_lt in En | apply Z.ltb_ge in En];
    (destruct (n + 1 <? 0) eqn:E1;
     [apply Z.ltb_lt in E1 | apply Z.ltb_ge in E1]); try lia.
  - destruct (Z_lt_le_dec (L + n) 0) as [Hout|Hin].
    { replace (Z.to_nat (Z.max (n + 1 + L) 0 - Z.max (n + L) 0))
        with 0%nat in H by lia.
      discriminate H. }
    replace (Z.to_nat (Z.max (n + 1 + L) 0 - Z.max (n + L) 0))
      with 1%nat in H by lia.
    apply firstn_one_skipn in H as [Hk Hs].
    exists (Z.to_nat (Z.max (n + L) 0)).
    split; [exact Hk|]. split; [exact Hs|]. split; [|split; [|split]].
    + rewrite Z.sub_0_r. reflexivity.
    + apply Hrest; [exact Hk | lia | lia].
    + lia.
    + lia.
  - replace (Z.to_nat (Z.min (n + 1) L - Z.max (n + L) 0))
      with 0%nat in H by lia.
    discriminate H.
  - destruct (Z_lt_le_dec n L) as [Hin|Hout].
    2:{ replace (Z.to_nat (Z.min (n + 1) L - Z.min n L))
          with 0%nat in H by lia.
        discriminate H. }
    replace (Z.to_nat (Z.min (n + 1) L - Z.min n L))
      with 1%nat in H by lia.
    apply firstn_one_skipn in H as [Hk Hs].
    exists (Z.to_nat (Z.min n L)).
    split; [exact Hk|]. split; [exact Hs|]. split; [|split; [|split]].
    + rewrite Z.sub_0_r. reflexivity.
    + apply Hrest; [exact Hk | lia | lia].
    + lia.
    + lia.
Qed.

(** X2: Soundness of the decoder: a buffer it accepts is a length field
    without a colon, a colon, the payload it returns, a comma and the
    remainder it returns. The field neither begins with [0] nor with [+]
    and [int()] reads it as a number [n]: when [n] is not negative the
    payload has [n] bytes; when it is negative (a field such as [-2]) the
    position of the comma is counted from the end and it is the remainder
    that has [-n-1] bytes. *)
Theorem accepted_buffer_is_a_frame (netstrings message rest : bytes) :
  inner_decode netstrings = inr (message, rest) ->
  exists field n,
    netstrings = field ++ b ":" ++ message ++ b "," ++ rest
    /\ ~ In ":"%byte field
    /\ startswith "0"%byte field = false
    /\ startswith "+"%byte field = false
    /\ int_of_bytes field = Some n
    /\ (0 <= n -> len message = n)
    /\ (n < 0 -> len rest = - n - 1).
Proof.
  intros H.
  assert (Hin : In ":"%byte netstrings).
  { destruct (in_dec Byte.byte_eq_dec ":"%byte netstrings) as [Hin|Hnot];
      [assumption|].
    apply inner_decode_no_colon in Hnot. congruence. }
  destruct (first_occurrence _ _ Hin) as (field & data & -> & Hfield).
  rewrite (inner_decode_cut field data Hfield) in H.
  destruct (startswith "0"%byte field) eqn:Hz; [discriminate|].
  destruct (startswith "+"%byte field) eqn:Hp; [discriminate|].
  cbn [orb] in H. destruct (int_of_bytes field) as [n|] eqn:Hn;
    [|discriminate].
  destruct (len data <? n + 1) eqn:Hshort; [discriminate|].
  cbn [orb] in H.
  destruct (bytes_eqb (slice (Some n) (Some (n + 1)) data) (b ","))
    eqn:Hcomma; [|discriminate].
  apply bytes_eqb_spec in Hcomma. cbn [negb] in H.
  injection H as Hm Hr. change (b ",") with [","%byte] in Hcomma.
  apply slice_comma_inv in Hcomma
    as (k & Hk & Hs & Hmsg & Hrest & Hpos & Hneg).
  rewrite Hmsg in Hm. rewrite Hrest in Hr. subst message rest.
  exists field, n. split.
  { assert (Hdata : data = firstn k data ++ ","%byte :: skipn (S k) data).
    { transitivity (firstn k data ++ skipn k data);
        [symmetry; apply firstn_skipn | f_equal; exact Hs]. }
    rewrite Hdata at 1. reflexivity. }
  do 4 (split; [assumption || reflexivity|]). split.
  - intros H0. unfold len. rewrite length_firstn. specialize (Hpos H0). lia.
  - intros H0. unfold len. rewrite length_skipn. specialize (Hneg H0).
    unfold len in Hneg. lia.
Qed.

Lemma accepted_buffer_is_a_frame_witness :
  exists field n,
    b "3:abc,2:xy," = field ++ b ":" ++ b "abc" ++ b "," ++ b "2:xy,"
    /\ ~ In ":"%byte field
    /\ startswith "0"%byte field = false
    /\ startswith "+"%byte field = false
    /\ int_of_bytes field = Some n
    /\ (0 <= n -> len (b "abc") = n)
    /\ (n < 0 -> len (b "2:xy,") = - n - 1).
Proof.
  apply (accepted_buffer_is_a_frame (b "3:abc,2:xy,") (b "abc") (b "2:xy,")).
  reflexivity.
Defined.

(** X3: The decoder takes the first frame off a buffer and hands back all the
    bytes after it untouched, whatever they are; the frame is that of a
    payload that is not empty and whose length has no more digits than
    [int()] converts. *)
Theorem first_frame_is_taken (m rest : bytes) :
  m <> [] ->
  (List.length (decimal (len m)) <= int_max_str_digits)%nat ->
  inner_decode (netstring_of_bytes m ++ rest) = inr (m, rest).
Proof. apply inner_decode_frame. Qed.

Lemma first_frame_is_taken_witness :
  inner_decode (netstring_of_bytes (b "abc") ++ b "2:x")
  = inr (b "abc", b "2:x").
Proof.
  apply (first_frame_is_taken (b "abc") (b "2:x")); [discriminate|].
  apply Nat.leb_le. reflexivity.
Defined.

(** X4: A frame that has not arrived in full is an error: the decoder refuses
    every proper prefix of a frame, for a missing colon or a missing
    comma. *)
Theorem partial_frame_is_refused (m : bytes) (k : nat) :
  m <> [] ->
  (List.length (decimal (len m)) <= int_max_str_digits)%nat ->
  (k < List.length (netstring_of_bytes m))%nat ->
  inner_decode (firstn k (netstring_of_bytes m)) = inl no_colon
  \/ inner_decode (firstn k (netstring_of_bytes m)) = inl no_comma.
Proof.
  intros Hm Hdigits Hk.
  assert (Hlen : 0 < len m).
  { unfold len. destruct m; [congruence | simpl; lia]. }
  destruct (decimal_spec (len m)) as (Hall & Hne & Hint & Hlead); [lia|].
  specialize (Hint Hdigits).
  pose proof (digits_no_colon _ Hall) as Hcolon.
  unfold netstring_of_bytes in *.
  change (b ":") with [":"%byte] in *. change (b ",") with [","%byte] in *.
  simpl app in *. rewrite firstn_app.
  destruct (Nat.le_gt_cases k (List.length (decimal (len m)))) as [Hle|Hgt].
  - left. replace (k - List.length (decimal (len m)))%nat with 0%nat by lia.
    simpl firstn. rewrite app_nil_r. apply inner_decode_no_colon.
    intros Hin. apply Hcolon.
    rewrite <- (firstn_skipn k (decimal (len m))).
    apply in_or_app. now left.
  - right. rewrite firstn_all2 by lia.
    destruct (k - List.length (decimal (len m)))%nat as [|k'] eqn:Ek; [lia|].
    cbn [firstn]. rewrite (inner_decode_cut _ _ Hcolon).
    rewrite (Hlead Hlen).
    assert (Hplus : startswith "+"%byte (decimal (len m)) = false).
    { destruct (decimal (len m)) as [|c r]; [reflexivity|].
      simpl in Hall. apply andb_true_iff in Hall as [Hc _].
      simpl. now apply digit_not_special. }
    rewrite Hplus, Hint. cbn [orb].
    assert (Hshort : (len (firstn k' (m ++ [","%byte])) <? len m + 1) = true).
    { apply Z.ltb_lt. unfold len. rewrite length_firstn.
      rewrite length_app in Hk. simpl in Hk. rewrite length_app in Hk.
      simpl in Hk. lia. }
    now rewrite Hshort.
Qed.

Lemma partial_frame_is_refused_witness :
  inner_decode (firstn 4 (netstring_of_bytes (b "abc"))) = inl no_colon
  \/ inner_decode (firstn 4 (netstring_of_bytes (b "abc"))) = inl no_comma.
Proof.
  apply (partial_frame_is_refused (b "abc") 4); [discriminate | |].
  - apply Nat.leb_le. reflexivity.
  - vm_compute. lia.
Defined.

(** ** The receive loop and the channel buffers *)

Lemma netstring_of_bytes_cons (m : bytes) :
  exists c r, netstring_of_bytes m = c :: r.
Proof.
  unfold netstring_of_bytes, decimal.
  destruct (len m <? 0); [simpl; eauto|].
  destruct (digits_of_N_spec (Z.to_N (len m))) as (_ & Hne & _).
  destruct (digits_of_N (Z.to_N (len m))) as [|c r]; [congruence|].
  simpl. eauto.
Qed.

(** X5: A complete frame at the head of what the channel has buffered and what
    the transport delivers now, in however many segments and calls it came,
    is returned by [inner]: the bytes after it stay in the channel's buffer
    and nothing is sent, printed or closed. The frame is that of a payload
    that is not empty, whose length has no more digits than [int()]
    converts and whose tag is not [E]. *)
Theorem buffered_frame_is_returned (sock : socket) (channel : Z)
        (w : world) (m rest : bytes) :
  closed (state_of sock w) = false ->
  reset_first (inbox (state_of sock w)) = false ->
  residual channel w ++ delivered (inbox (state_of sock w))
  = netstring_of_bytes m ++ rest ->
  m <> [] ->
  (List.length (decimal (len m)) <= int_max_str_digits)%nat ->
  tag m <> b "E" ->
  exists w',
    inner sock channel w = (Ret m, w')
    /\ residual channel w' = rest
    /\ inbox (state_of sock w') = after_stop (inbox (state_of sock w))
    /\ trace w' = trace w.
Proof.
  intros Hopen Hreset Hbuf Hm Hdigits Htag.
  rewrite (inner_open sock channel w Hopen), Hreset, Hbuf.
  destruct (netstring_of_bytes_cons m) as (c & r & Hc).
  pose proof (inner_decode_frame m rest Hm Hdigits) as Hdec.
  rewrite Hc in *. cbn [app] in *.
  unfold inner_after_recv. rewrite Hdec. unfold bind.
  fold (tag m).
  destruct (bytes_eqb (tag m) (b "E")) eqn:E;
    [apply bytes_eqb_spec in E; contradiction|].
  eexists. split; [reflexivity|]. 
  repeat split.
  - unfold residual. simpl. now destruct (channel =? 0).
  - destruct sock; reflexivity.
  - destruct sock; reflexivity.
Qed.

Lemma buffered_frame_is_returned_witness :
  exists w',
    inner control_channel 0
      (start (connected [Segment (b "3:a"); Segment (b "bc,2:x"); TimedOut])
             (connected []))
    = (Ret (b "abc"), w')
    /\ residual 0 w' = b "2:x"
    /\ inbox (state_of control_channel w')
       = after_stop [Segment (b "3:a"); Segment (b "bc,2:x"); TimedOut]
    /\ trace w' = trace (start (connected [Segment (b "3:a");
                                            Segment (b "bc,2:x"); TimedOut])
                               (connected [])).
Proof.
  apply (buffered_frame_is_returned control_channel 0
           (start (connected [Segment (b "3:a"); Segment (b "bc,2:x");
                              TimedOut])
                  (connected []))
           (b "abc") (b "2:x")); try reflexivity; try discriminate.
  apply Nat.leb_le. reflexivity.
Defined.

(** The path of lines 80-85 never returns either. *)
Lemma no_data_no_ret (sock : socket) (channel : Z) (w w' : world)
      (m : bytes) :
  inner_after_recv sock channel [] w <> (Ret m, w').
Proof.
  unfold inner_after_recv, bind, lift, sendall, print, close, sys_exit,
    raise, ret.
  destruct (netstring_bytes_of (u "E " ++ u "no netstring received"));
    [|discriminate].
  destruct (closed (state_of sock w) || broken (state_of sock w));
    [discriminate|].
  match goal with
  | |- context [if ?c then _ else _] => destruct c
  end; discriminate.
Qed.

Lemma inner_after_recv_ret (sock : socket) (channel : Z)
      (netstrings m : bytes) (w w' : world) :
  inner_after_recv sock channel netstrings w = (Ret m, w') ->
  exists rest,
    inner_decode netstrings = inr (m, rest)
    /\ tag m <> b "E"
    /\ w' = with_residual channel rest w.
Proof.
  destruct netstrings as [|c r]; intros H;
    [now apply no_data_no_ret in H|].
  unfold inner_after_recv in H.
  destruct (inner_decode (c :: r)) as [e|[message rest]];
    [now apply send_error_no_ret in H|].
  apply bind_ret_inv in H as (x & w1 & H1 & H).
  injection H1 as _ <-. fold (tag message) in H.
  destruct (bytes_eqb (tag message) (b "E")) eqn:E.
  - apply bind_ret_inv in H as (f & w2 & _ & H).
    apply bind_ret_inv in H as (t & w3 & _ & H).
    now apply send_error_no_ret in H.
  - injection H as <- <-. exists rest. repeat split.
    intros Ht. apply bytes_eqb_spec in Ht. congruence.
Qed.

(** X6: What a call of [inner] that returns has done: the socket was open and
    the loop ended without an error; the message and the new content of the
    channel's buffer are what the decoder makes of the old buffer followed
    by the bytes delivered; the tag of the message is not [E]; and the
    world is the old one but for that buffer and the script of the socket,
    so nothing was sent, printed or closed and the buffer of the other
    channel is as it was. *)
Theorem returned_message (sock : socket) (channel : Z) (w w' : world)
        (m : bytes) :
  inner sock channel w = (Ret m, w') ->
  closed (state_of sock w) = false
  /\ reset_first (inbox (state_of sock w)) = false
  /\ inner_decode
       (residual channel w ++ delivered (inbox (state_of sock w)))
     = inr (m, residual channel w')
  /\ tag m <> b "E"
  /\ w' = with_residual channel (residual channel w')
            (with_inbox sock (after_stop (inbox (state_of sock w))) w)
  /\ trace w' = trace w.
Proof.
  intros H.
  destruct (closed (state_of sock w)) eqn:Hopen.
  { unfold inner, bind, recv_all in H. rewrite Hopen in H. discriminate. }
  rewrite (inner_open sock channel w Hopen) in H.
  destruct (reset_first (inbox (state_of sock w))); [discriminate|].
  apply inner_after_recv_ret in H as (rest & Hdec & Htag & ->).
  assert (Hres : residual channel
                   (with_residual channel rest
                      (with_inbox sock
                         (after_stop (inbox (state_of sock w))) w))
                 = rest).
  { unfold residual. simpl. now destruct (channel =? 0). }
  rewrite Hres. repeat split; try assumption.
  destruct sock; reflexivity.
Qed.

Lemma returned_message_witness :
  closed (state_of control_channel
            (start (connected [Segment (b "3:abc,2:xy,")]) (connected [])))
  = false
  /\ reset_first
       (inbox (state_of control_channel
                 (start (connected [Segment (b "3:abc,2:xy,")])
                        (connected []))))
     = false
  /\ inner_decode
       (residual 0 (start (connected [Segment (b "3:abc,2:xy,")])
                          (connected []))
          ++ delivered
               (inbox (state_of control_channel
                         (start (connected [Segment (b "3:abc,2:xy,")])
                                (connected [])))))
     = inr (b "abc",
            residual 0
              (with_residual 0 (b "2:xy,") (start (connected [])
                                                  (connected []))))
  /\ tag (b "abc") <> b "E"
  /\ with_residual 0 (b "2:xy,") (start (connected []) (connected []))
     = with_residual 0
         (residual 0
            (with_residual 0 (b "2:xy,") (start (connected [])
                                                (connected []))))
         (with_inbox control_channel
            (after_stop
               (inbox (state_of control_channel
                         (start (connected [Segment (b "3:abc,2:xy,")])
                                (connected [])))))
            (start (connected [Segment (b "3:abc,2:xy,")]) (connected [])))
  /\ trace (with_residual 0 (b "2:xy,") (start (connected [])
                                               (connected [])))
     = trace (start (connected [Segment (b "3:abc,2:xy,")]) (connected [])).
Proof.
  apply (returned_message control_channel 0
           (start (connected [Segment (b "3:abc,2:xy,")]) (connected []))
           (with_residual 0 (b "2:xy,")
              (start (connected []) (connected [])))
           (b "abc")).
  reflexivity.
Defined.

(** [w'] is [w] after steps on [sock] for the channel [channel]: the other
    sockets and the buffer of the other channel are the same, the flags of
    [sock] only go from open to closed, and the trace has grown. *)
Lemma kept_refl (sock : socket) (channel : Z) (w : world) :
  (forall s, s <> sock -> state_of s w = state_of s w)
  /\ (forall c, (c =? 0) <> (channel =? 0) -> residual c w = residual c w)
  /\ broken (state_of sock w) = broken (state_of sock w)
  /\ exists events, trace w = trace w ++ events.
Proof. repeat split. exists []. now rewrite app_nil_r. Qed.

Ltac crush_kept :=
  split; [|split; [|split]];
  [ intros s Hs; destruct s; try reflexivity; congruence
  | intros c Hc; unfold residual; simpl;
    repeat match goal with
           | |- context [?x =? 0] => destruct (x =? 0)
           end; try reflexivity; congruence
  | reflexivity
  | simpl; rewrite <- ?app_assoc; eexists; try reflexivity;
    symmetry; apply app_nil_r ].

Ltac finish_kept :=
  match goal with
  | Hopen : closed (state_of ?sock ?w) = false |- _ =>
      destruct w as [[i1 c1 b1] [i2 c2 b2] [i3 c3 b3] cn dn tr], sock;
      simpl in Hopen; subst; simpl;
      destruct b1, b2, b3; simpl; crush_kept
  end.

(** X7: In every outcome, a call of [inner] leaves the other sockets and the
    buffer of the other channel as they were, does not mend or break the
    connection of its socket, and only adds to what was sent, printed and
    closed before. *)
Theorem inner_keeps_the_rest (sock : socket) (channel : Z) (w : world) :
  (forall s, s <> sock ->
     state_of s (snd (inner sock channel w)) = state_of s w)
  /\ (forall c, (c =? 0) <> (channel =? 0) ->
        residual c (snd (inner sock channel w)) = residual c w)
  /\ broken (state_of sock (snd (inner sock channel w)))
     = broken (state_of sock w)
  /\ exists events,
      trace (snd (inner sock channel w)) = trace w ++ events.
Proof.
  destruct (closed (state_of sock w)) eqn:Hopen.
  { unfold inner, bind, recv_all. rewrite Hopen. apply kept_refl. }
  rewrite (inner_open sock channel w Hopen).
  set (script := after_stop (inbox (state_of sock w))).
  set (buffer := residual channel w ++ delivered (inbox (state_of sock w))).
  destruct (reset_first (inbox (state_of sock w))).
  { destruct w, sock; crush_kept. }
  clearbody script buffer.
  unfold inner_after_recv, send_error, bind, lift, sendall, print, close,
    sys_exit, raise, ret.
  destruct buffer as [|c0 r0].
  - change (netstring_bytes_of (u "E " ++ u "no netstring received"))
      with (Some (b "23:E no netstring received,")).
    finish_kept.
  - destruct (inner_decode (c0 :: r0)) as [e|[message rest]].
    + destruct (netstring_bytes_of _); finish_kept.
    + destruct (bytes_eqb (nth 0 (bsplit " "%byte None message) [])
                  (b "E")); [|finish_kept].
      destruct (nth_error (bsplit " "%byte None message) 1) as [f|];
        [|finish_kept].
      destruct (decode f) as [t|]; [|finish_kept].
      destruct (netstring_bytes_of _); finish_kept.
Qed.

Lemma with_inbox_twice (sock : socket) (s1 s2 : list recv_event)
      (w : world) :
  with_inbox sock s2 (with_inbox sock s1 w) = with_inbox sock s2 w.
Proof. now destruct sock. Qed.

Lemma residual_with_inbox (sock : socket) (script : list recv_event)
      (channel : Z) (w : world) :
  residual channel (with_inbox sock script w) = residual channel w.
Proof. now destruct sock. Qed.

Ltac finish_script :=
  match goal with
  | w : world, sock : socket |- _ =>
      destruct w as [[i1 c1 b1] [i2 c2 b2] [i3 c3 b3] cn dn tr], sock;
      simpl; destruct c1, c2, c3, b1, b2, b3; reflexivity
  end.

(** What [inner] does after its loop does not look at the script of the
    socket. *)
Lemma inner_after_recv_with_inbox (sock : socket) (channel : Z)
      (netstrings : bytes) (script : list recv_event) (w : world) :
  inner_after_recv sock channel netstrings (with_inbox sock script w)
  = (fst (inner_after_recv sock channel netstrings w),
     with_inbox sock script
       (snd (inner_after_recv sock channel netstrings w))).
Proof.
  unfold inner_after_recv, send_error, bind, lift, sendall, print, close,
    sys_exit, raise, ret.
  destruct netstrings as [|c0 r0].
  - change (netstring_bytes_of (u "E " ++ u "no netstring received"))
      with (Some (b "23:E no netstring received,")).
    finish_script.
  - destruct (inner_decode (c0 :: r0)) as [e|[message rest]].
    + destruct (netstring_bytes_of _); finish_script.
    + destruct (bytes_eqb (nth 0 (bsplit " "%byte None message) [])
                  (b "E")); [|finish_script].
      destruct (nth_error (bsplit " "%byte None message) 1) as [f|];
        [|finish_script].
      destruct (decode f) as [t|]; [|finish_script].
      destruct (netstring_bytes_of _); finish_script.
Qed.

(** X8: The channel is a byte stream: when two scripts deliver the same bytes
    before their first [recv] that brings nothing, however those bytes are
    cut into segments, [inner] has the same outcome on both, and the two
    worlds it leaves differ in the rest of the script only. *)
Theorem segmentation_does_not_matter (sock : socket) (channel : Z)
        (w : world) (s1 s2 : list recv_event) :
  closed (state_of sock w) = false ->
  delivered s1 = delivered s2 ->
  reset_first s1 = reset_first s2 ->
  fst (inner sock channel (with_inbox sock s1 w))
  = fst (inner sock channel (with_inbox sock s2 w))
  /\ snd (inner sock channel (with_inbox sock s2 w))
     = with_inbox sock (after_stop s2)
         (snd (inner sock channel (with_inbox sock s1 w))).
Proof.
  intros Hopen Hbytes Hreset.
  assert (Hopen' : forall s,
             closed (state_of sock (with_inbox sock s w)) = false).
  { intros s. now rewrite state_of_with_inbox. }
  rewrite !inner_open by apply Hopen'.
  rewrite !state_of_with_inbox. cbn [inbox].
  rewrite !with_inbox_twice, !residual_with_inbox, Hbytes, Hreset.
  destruct (reset_first s2).
  - cbn [fst snd]. now rewrite with_inbox_twice.
  - rewrite !inner_after_recv_with_inbox. cbn [fst snd].
    now rewrite with_inbox_twice.
Qed.

Lemma segmentation_does_not_matter_witness :
  fst (inner control_channel 0
         (with_inbox control_channel [Segment (b "3:a"); Segment (b "bc,")]
            (start (connected []) (connected []))))
  = fst (inner control_channel 0
           (with_inbox control_channel [Segment (b "3:abc,"); TimedOut]
              (start (connected []) (connected []))))
  /\ snd (inner control_channel 0
            (with_inbox control_channel [Segment (b "3:abc,"); TimedOut]
               (start (connected []) (connected []))))
     = with_inbox control_channel
         (after_stop [Segment (b "3:abc,"); TimedOut])
         (snd (inner control_channel 0
                 (with_inbox control_channel
                    [Segment (b "3:a"); Segment (b "bc,")]
                    (start (connected []) (connected []))))).
Proof.
  apply (segmentation_does_not_matter control_channel 0
           (start (connected []) (connected []))
           [Segment (b "3:a"); Segment (b "bc,")]
           [Segment (b "3:abc,"); TimedOut]);
    reflexivity.
Defined.

(** ** [string_to_int] *)

Lemma is_digit_val (c : byte) : is_digit c = true -> 0 <= digit_val c <= 9.
Proof.
  unfold is_digit, digit_val. intros H. apply andb_true_iff in H as [H1 H2].
  apply N.leb_le in H1, H2. lia.
Qed.

Lemma scan_digits_lower (l : bytes) :
  forall prev_us seen acc v rest,
    0 <= acc ->
    scan_digits prev_us seen acc l = Some (v, rest) -> acc <= v.
Proof.
  induction l as [|c r IH]; intros prev_us seen acc v rest Hacc H;
    cbn [scan_digits] in H.
  - destruct prev_us; [discriminate|]. destruct seen; [|discriminate].
    injection H as <- _. lia.
  - destruct (is_digit c) eqn:Hc.
    + pose proof (is_digit_val c Hc). apply IH in H; lia.
    + destruct (Byte.eqb c "_"%byte).
      * destruct prev_us; [discriminate|]. now apply IH in H.
      * destruct prev_us; [discriminate|]. destruct seen; [|discriminate].
        injection H as <- _. lia.
Qed.

Section StringToInt.
Variable unicode_decimal : codepoint -> option N.
Variable unicode_space : codepoint -> bool.

Lemma string_to_int_shape (string : str) (n : Z) :
  string_to_int unicode_decimal unicode_space string = Ret (Some n) ->
  1 <= n
  /\ exists c r, string = c :: r /\ (49 <= c <= 57)%N.
Proof.
  unfold string_to_int. destruct string as [|c r]; [discriminate|].
  cbn [re_match_pattern].
  destruct ((49 <=? c) && (c <=? 57))%N eqn:Hc; [|discriminate].
  apply andb_true_iff in Hc as [H1 H2]. apply N.leb_le in H1, H2.
  intros H. split; [|exists c, r; split; [reflexivity | lia]].
  match type of H with
  | (if negb ?m then _ else _) = _ => destruct m; [|discriminate]
  end.
  cbn [negb] in H. unfold int_of_str in H. cbn [to_ascii] in H.
  assert (H127 : (c <? 127)%N = true) by (apply N.ltb_lt; lia).
  rewrite H127 in H.
  destruct (to_ascii unicode_decimal unicode_space r) as [y|];
    [|discriminate].
  destruct (int_of_bytes (byte_of c :: y)) as [v|] eqn:Hv; [|discriminate].
  injection H as <-.
  assert (Hd : is_ascii_digit c = true).
  { unfold is_ascii_digit. apply andb_true_iff.
    split; apply N.leb_le; lia. }
  destruct (ascii_digit_byte c Hd) as (_ & _ & Hdig & Hval).
  destruct (digit_not_special _ Hdig) as (Hs & Hp & Hm & Hu & _).
  unfold int_of_bytes in Hv. cbn [lstrip] in Hv. rewrite Hs, Hp, Hm in Hv.
  cbn [startswith] in Hv. rewrite Hu in Hv.
  cbn [scan_digits] in Hv. rewrite Hdig in Hv.
  destruct (scan_digits false true (10 * 0 + digit_val (byte_of c)) y)
    as [[v0 rest]|] eqn:Hscan; [|discriminate].
  apply scan_digits_lower in Hscan; [|lia].
  match type of Hv with
  | (if ?t then _ else _) = _ => destruct t; [discriminate|]
  end.
  destruct (lstrip rest); [|discriminate]. injection Hv as <-. lia.
Qed.

(** X9: [string_to_int] never yields zero or a negative number: a text it
    accepts begins with one of the digits 1 to 9, and the number is at
    least 1. *)
Theorem string_to_int_is_positive (string : str) (n : Z) :
  string_to_int unicode_decimal unicode_space string = Ret (Some n) ->
  1 <= n
  /\ exists c r, string = c :: r /\ (49 <= c <= 57)%N.
Proof. apply string_to_int_shape. Qed.

Lemma skip_digits_newline (s : str) :
  forallb is_ascii_digit s = true ->
  skip_digits unicode_decimal (s ++ [10%N]) = [10%N].
Proof.
  induction s as [|c r IH]; simpl; intros H; [reflexivity|].
  apply andb_true_iff in H as [Hc Hr]. unfold re_digit.
  destruct (ascii_digit_byte c Hc) as (_ & H128 & _).
  rewrite H128. unfold is_ascii_digit in Hc. rewrite Hc. now apply IH.
Qed.

(** X10: The [$] of the pattern also matches before a newline that ends the
    text, and [int] skips it: a field of at most 4300 decimal digits
    without a leading zero is accepted with the same value when one newline
    follows it. *)
Theorem string_to_int_trailing_newline (field : str) :
  forallb is_ascii_digit field = true ->
  leading_nonzero field = true ->
  (List.length field <= int_max_str_digits)%nat ->
  string_to_int unicode_decimal unicode_space (field ++ [10%N])
  = Ret (Some (decimal_value field)).
Proof.
  intros Hall Hlead Hlen. unfold string_to_int.
  destruct field as [|c r]; [discriminate|].
  pose proof Hall as Hall'. simpl in Hall'.
  apply andb_true_iff in Hall' as [Hc Hr].
  assert (Hmatch : re_match_pattern unicode_decimal ((c :: r) ++ [10%N])
                   = true).
  { cbn [app re_match_pattern]. rewrite (skip_digits_newline r Hr).
    rewrite andb_true_r.
    pose proof (re_match_pattern_digits unicode_decimal (c :: r) Hall) as E.
    cbn [re_match_pattern] in E. rewrite (skip_digits_all _ r Hr) in E.
    rewrite andb_true_r in E. now rewrite E. }
  rewrite Hmatch. cbn [negb].
  destruct (to_ascii_digits unicode_decimal unicode_space (c :: r) Hall)
    as (Ha & Hd & Hv).
  unfold int_of_str. rewrite to_ascii_app, Ha.
  change (to_ascii unicode_decimal unicode_space [10%N])
    with (Some [byte_of 10]).
  cbv beta iota.
  rewrite (int_of_bytes_digits_then _ [byte_of 10] Hd)
    by (auto; discriminate).
  rewrite length_map.
  match goal with
  | |- context [(?lim <? ?n)%nat] =>
      destruct (lim <? n)%nat eqn:E;
        [apply Nat.ltb_lt in E; exfalso;
         apply (Nat.lt_irrefl int_max_str_digits);
         eapply Nat.lt_le_trans; [exact E | exact Hlen]|]
  end.
  unfold decimal_value, digits_value. now rewrite Hv.
Qed.

End StringToInt.

Lemma string_to_int_is_positive_witness :
  1 <= 512
  /\ exists c r, u "512" = c :: r /\ (49 <= c <= 57)%N.
Proof.
  apply (string_to_int_is_positive sample_decimal sample_space (u "512") 512).
  reflexivity.
Defined.

Lemma string_to_int_trailing_newline_witness :
  string_to_int sample_decimal sample_space (u "512" ++ [10%N])
  = Ret (Some (decimal_value (u "512"))).
Proof.
  apply (string_to_int_trailing_newline sample_decimal sample_space (u "512"));
    try reflexivity.
  apply Nat.leb_le. reflexivity.
Defined.

(** ** Sessions that succeed *)

Lemma inner_ret_inv (sock : socket) (channel : Z) (w w' : world)
      (m : bytes) :
  inner sock channel w = (Ret m, w') ->
  closed (state_of sock w) = false
  /\ trace w' = trace w
  /\ forall s, closed (state_of s w') = closed (state_of s w).
Proof.
  intros H.
  destruct (closed (state_of sock w)) eqn:Hopen.
  { unfold inner, bind, recv_all in H. rewrite Hopen in H. discriminate. }
  rewrite (inner_open sock channel w Hopen) in H.
  destruct (reset_first (inbox (state_of sock w))); [discriminate|].
  apply inner_after_recv_ret in H as (rest & _ & _ & ->).
  repeat split.
  - destruct sock; reflexivity.
  - intros s. destruct sock, s; reflexivity.
Qed.

Lemma netstring_bytes_of_inv (text : str) (frame : bytes) :
  netstring_bytes_of text = Some frame ->
  exists x, encode text = Some x /\ frame = netstring_of_bytes x.
Proof.
  intros H. destruct (encode text) as [x|] eqn:E.
  - exists x. split; [reflexivity|].
    rewrite (netstring_bytes_of_encode text x E) in H. congruence.
  - unfold netstring_bytes_of, string_to_netstring in H.
    rewrite E in H. discriminate.
Qed.

Lemma send_message_ret (message : str) (sock : socket) (w w' : world) :
  send_message message sock w = (Ret tt, w') ->
  exists x,
    encode message = Some x
    /\ w' = log (Sent sock (netstring_of_bytes x)) w.
Proof.
  unfold send_message. intros H.
  apply bind_ret_inv in H as (frame & w1 & H1 & H).
  unfold lift in H1.
  destruct (netstring_bytes_of message) as [f|] eqn:E; [|discriminate].
  injection H1 as <- <-.
  apply netstring_bytes_of_inv in E as (x & Hx & ->).
  exists x. split; [assumption|].
  unfold sendall in H.
  destruct (closed (state_of sock w) || broken (state_of sock w));
    [discriminate|].
  now injection H.
Qed.

Lemma guard_ret (c : bool) (error : str) (sock : socket) (w w' : world) :
  (if c then send_error error sock else ret tt) w = (Ret tt, w') ->
  c = false /\ w' = w.
Proof.
  destruct c; intros H; [now apply send_error_no_ret in H|].
  injection H as <-. auto.
Qed.

Lemma with_socket_ret {A} (s : socket) (body : M A) (w w' : world) (a : A) :
  with_socket s body w = (Ret a, w') ->
  exists w1, body w = (Ret a, w1) /\ w' = snd (close s w1).
Proof.
  unfold with_socket. destruct (body w) as [[x|e|] w1]; try discriminate.
  intros H. injection H as <- <-. eauto.
Qed.

Lemma closed_log (e : event) (s : socket) (w : world) :
  closed (state_of s (log e w)) = closed (state_of s w).
Proof. now destruct s. Qed.

Lemma encode_with_prefix (prefix : bytes) (text : str) (x : bytes) :
  forallb is_ascii prefix = true ->
  encode (map Byte.to_N prefix ++ text) = Some x ->
  exists y, encode text = Some y /\ x = prefix ++ y.
Proof.
  intros Hp H. rewrite encode_app, (encode_ascii prefix Hp) in H.
  destruct (encode text) as [y|]; [|discriminate].
  injection H as <-. eauto.
Qed.

Lemma split_once_inv (l x y : bytes) (sep : byte) :
  split Byte.eqb sep (Some 1%nat) l = [x; y] -> l = x ++ sep :: y.
Proof.
  revert x. induction l as [|c r IH]; simpl; intros x H; [discriminate|].
  rewrite andb_true_r in H. destruct (Byte.eqb c sep) eqn:Ec.
  - apply byte_eqb_spec in Ec. subst c. simpl in H.
    rewrite (split_no_limit_left Byte.eqb) in H. now injection H as <- <-.
  - destruct (split Byte.eqb sep (Some 1%nat) r) as [|hd tl] eqn:E.
    + now apply split_nonempty in E.
    + injection H as <- ->. now rewrite (IH hd eq_refl).
Qed.

Lemma run_handshake_ret (nick : str) (w w' : world) (token : bytes) :
  run_handshake nick w = (Ret token, w') ->
  exists nick_b,
    encode nick = Some nick_b
    /\ trace w'
       = trace w
           ++ [Sent control_channel (netstring_of_bytes (b "C GRNVS V:1.0"));
               Sent control_channel (netstring_of_bytes (b "C " ++ nick_b))]
    /\ closed (control_state w') = false
    /\ forall s, closed (state_of s w') = closed (state_of s w).
Proof.
  unfold run_handshake, receive_message. intros H.
  apply bind_ret_inv in H as ([] & w1 & H1 & H).
  apply send_message_ret in H1 as (x1 & Hx1 & ->).
  injection Hx1 as <-.
  apply bind_ret_inv in H as (r1 & w2 & H2 & H).
  apply inner_ret_inv in H2 as (_ & Ht2 & Hc2).
  apply bind_ret_inv in H as ([] & w3 & H3 & H).
  apply guard_ret in H3 as (_ & ->).
  apply bind_ret_inv in H as ([] & w4 & H4 & H).
  apply send_message_ret in H4 as (x4 & Hx4 & ->).
  apply (encode_with_prefix (b "C ")) in Hx4 as (nick_b & Hn & ->);
    [|reflexivity].
  apply bind_ret_inv in H as (r2 & w5 & H5 & H).
  apply inner_ret_inv in H5 as (Ho5 & Ht5 & Hc5).
  apply try_send_error_ret in H.
  apply bind_ret_inv in H as ([begin tok] & w6 & H6 & H).
  unfold lift in H6. destruct (unpack2 _); [|discriminate].
  injection H6 as _ <-.
  destruct (bytes_eqb begin (b "E")); [now apply send_error_no_ret in H|].
  destruct (negb (bytes_eqb begin (b "S"))); [discriminate|].
  injection H as _ <-.
  exists nick_b. split; [assumption|]. split; [|split].
  - rewrite Ht5. simpl. rewrite Ht2. simpl. now rewrite <- app_assoc.
  - change (closed (state_of control_channel w5) = false).
    rewrite Hc5. exact Ho5.
  - intros s. now rewrite Hc5, closed_log, Hc2, closed_log.
Qed.

Lemma build_data_channel_ret (e : env) (message nick dst_address : str)
      (token data : bytes) (w w' : world) :
  build_data_channel e message nick dst_address token w = (Ret data, w') ->
  peer e = Some dst_address
  /\ exists nick_b message_b,
      encode nick = Some nick_b
      /\ encode message = Some message_b
      /\ trace w'
         = trace w
             ++ [Sent server_socket (netstring_of_bytes (b "D " ++ nick_b));
                 Sent server_socket
                   (netstring_of_bytes (b "D " ++ message_b));
                 Closed server_socket]
      /\ forall s, s <> server_socket ->
           closed (state_of s w') = closed (state_of s w).
Proof.
  unfold build_data_channel, receive_message. intros H.
  apply bind_ret_inv in H as (address & w1 & H1 & H).
  unfold accept in H1. destruct (peer e) as [p|]; [|discriminate].
  injection H1 as <- <-.
  apply bind_ret_inv in H as ([] & w2 & H2 & H).
  apply guard_ret in H2 as (Haddr & ->).
  apply negb_false_iff, str_eqb_spec in Haddr. subst p.
  split; [reflexivity|].
  apply bind_ret_inv in H as (d1 & w3 & H3 & H).
  apply inner_ret_inv in H3 as (_ & Ht3 & Hc3).
  apply bind_ret_inv in H as ([] & w4 & H4 & H).
  apply guard_ret in H4 as (_ & ->).
  apply bind_ret_inv in H as ([] & w5 & H5 & H).
  apply send_message_ret in H5 as (x5 & Hx5 & ->).
  apply (encode_with_prefix (b "D ")) in Hx5 as (nick_b & Hn & ->);
    [|reflexivity].
  apply bind_ret_inv in H as (d2 & w6 & H6 & H).
  apply inner_ret_inv in H6 as (_ & Ht6 & Hc6).
  apply bind_ret_inv in H as ([] & w7 & H7 & H).
  unfold check_token_reply in H7. apply try_send_error_ret in H7.
  apply bind_ret_inv in H7 as ([begin tok] & w8 & H8 & H7).
  unfold lift in H8. destruct (unpack2 _); [|discriminate].
  injection H8 as _ <-.
  destruct (bytes_eqb begin (b "E")); [now apply send_error_no_ret in H7|].
  destruct (negb (bytes_eqb begin (b "T")) || negb (bytes_eqb tok token));
    [discriminate|].
  injection H7 as <-.
  apply bind_ret_inv in H as ([] & w9 & H9 & H).
  apply send_message_ret in H9 as (x9 & Hx9 & ->).
  apply (encode_with_prefix (b "D ")) in Hx9 as (message_b & Hm & ->);
    [|reflexivity].
  apply bind_ret_inv in H as (d3 & w10 & H10 & H).
  apply inner_ret_inv in H10 as (Ho10 & Ht10 & Hc10).
  apply bind_ret_inv in H as ([] & w11 & H11 & H).
  injection H as _ <-.
  assert (Ho : closed (state_of server_socket w10) = false)
    by (rewrite Hc10; exact Ho10).
  unfold close in H11. rewrite Ho in H11. injection H11 as <-.
  exists nick_b, message_b. do 2 (split; [assumption|]). split.
  - simpl. rewrite Ht10. simpl. rewrite Ht6. simpl. rewrite Ht3.
    now rewrite <- !app_assoc.
  - intros s Hs.
    transitivity (closed (state_of s w10)).
    { destruct s; try reflexivity. congruence. }
    now rewrite Hc10, closed_log, Hc6, closed_log, Hc3.
Qed.

Lemma run_transfer_ret (e : env) (message nick dst_address : str)
      (token dtoken : bytes) (w w' : world) :
  closed (listener_state w) = false ->
  run_transfer e message nick dst_address token w = (Ret dtoken, w') ->
  peer e = Some dst_address
  /\ exists nick_b message_b,
      encode nick = Some nick_b
      /\ encode message = Some message_b
      /\ trace w'
         = trace w
             ++ [Sent control_channel
                   (netstring_of_bytes (b "C " ++ decimal (dport e)));
                 Sent server_socket (netstring_of_bytes (b "D " ++ nick_b));
                 Sent server_socket
                   (netstring_of_bytes (b "D " ++ message_b));
                 Closed server_socket;
                 Closed data_channel]
      /\ closed (control_state w') = closed (control_state w).
Proof.
  unfold run_transfer. intros Hl H.
  apply with_socket_ret in H as (w1 & H & ->).
  apply bind_ret_inv in H as ([] & w2 & H2 & H).
  apply send_message_ret in H2 as (x2 & Hx2 & ->).
  unfold str_of_int in Hx2.
  apply (encode_with_prefix (b "C ")) in Hx2 as (port_b & Hp & ->);
    [|reflexivity].
  change (map Byte.to_N (decimal (dport e))) with (str_of_int (dport e))
    in Hp.
  rewrite encode_str_of_int in Hp. injection Hp as <-.
  apply bind_ret_inv in H as (dtoken_data & w3 & H3 & H).
  apply build_data_channel_ret in H3
    as (Hpeer & nick_b & message_b & Hn & Hm & Ht3 & Hc3).
  apply try_send_error_ret in H.
  apply bind_ret_inv in H as ([begin tok] & w4 & H4 & H).
  unfold lift in H4. destruct (unpack2 _); [|discriminate].
  injection H4 as _ <-.
  destruct (bytes_eqb begin (b "E")); [now apply send_error_no_ret in H|].
  destruct (negb (bytes_eqb begin (b "T"))); [discriminate|].
  injection H as _ <-.
  split; [assumption|]. exists nick_b, message_b.
  do 2 (split; [assumption|]).
  assert (Hl3 : closed (state_of data_channel w3) = false).
  { rewrite Hc3 by discriminate. now rewrite closed_log. }
  unfold close. rewrite Hl3. cbn [snd]. split.
  - simpl. rewrite Ht3. simpl. now rewrite <- !app_assoc.
  - simpl. change (closed (state_of control_channel w3)
                   = closed (state_of control_channel w)).
    rewrite Hc3 by discriminate. now rewrite closed_log.
Qed.

(** *** The replies a completed phase has received *)

Lemma run_handshake_chain (nick : str) (w w' : world) (token : bytes) :
  run_handshake nick w = (Ret token, w') ->
  exists nick_b w2,
    encode nick = Some nick_b
    /\ inner control_channel 0
         (log (Sent control_channel (netstring_of_bytes (b "C GRNVS V:1.0")))
            w)
       = (Ret (b "S GRNVS V:1.0"), w2)
    /\ inner control_channel 0
         (log (Sent control_channel (netstring_of_bytes (b "C " ++ nick_b)))
            w2)
       = (Ret (b "S " ++ token), w').
Proof.
  unfold run_handshake, receive_message. intros H.
  apply bind_ret_inv in H as ([] & w1 & H1 & H).
  apply send_message_ret in H1 as (x1 & Hx1 & ->).
  injection Hx1 as <-.
  apply bind_ret_inv in H as (r1 & w2 & H2 & H).
  apply bind_ret_inv in H as ([] & w3 & H3 & H).
  apply guard_ret in H3 as (Hr1 & ->).
  apply negb_false_iff, bytes_eqb_spec in Hr1. subst r1.
  apply bind_ret_inv in H as ([] & w4 & H4 & H).
  apply send_message_ret in H4 as (x4 & Hx4 & ->).
  apply (encode_with_prefix (b "C ")) in Hx4 as (nick_b & Hn & ->);
    [|reflexivity].
  apply bind_ret_inv in H as (r2 & w5 & H5 & H).
  apply try_send_error_ret in H.
  apply bind_ret_inv in H as ([begin tok] & w6 & H6 & H).
  unfold lift, bsplit in H6.
  destruct (split Byte.eqb " "%byte (Some 1%nat) r2)
    as [|x [|y [|z t]]] eqn:S; try discriminate H6.
  injection H6 as -> -> <-.
  destruct (bytes_eqb begin (b "E"));
    [now apply send_error_no_ret in H|].
  destruct (bytes_eqb begin (b "S")) eqn:Hb; [|discriminate].
  apply bytes_eqb_spec in Hb. subst begin. injection H as <- <-.
  apply split_once_inv in S. subst r2.
  exists nick_b, w2. auto.
Qed.

Lemma build_data_channel_chain (e : env) (message nick dst_address : str)
      (token data : bytes) (w w' : world) :
  build_data_channel e message nick dst_address token w = (Ret data, w') ->
  exists nick_b message_b w2 w4 w6,
    encode nick = Some nick_b
    /\ encode message = Some message_b
    /\ inner server_socket 1 w = (Ret (b "T GRNVS V:1.0"), w2)
    /\ inner server_socket 1
         (log (Sent server_socket (netstring_of_bytes (b "D " ++ nick_b)))
            w2)
       = (Ret (b "T " ++ token), w4)
    /\ inner server_socket 1
         (log (Sent server_socket
                 (netstring_of_bytes (b "D " ++ message_b))) w4)
       = (Ret data, w6)
    /\ w' = snd (close server_socket w6).
Proof.
  unfold build_data_channel, receive_message. intros H.
  apply bind_ret_inv in H as (address & w1 & H1 & H).
  unfold accept in H1. destruct (peer e) as [p|]; [|discriminate].
  injection H1 as <- <-.
  apply bind_ret_inv in H as ([] & w2 & H2 & H).
  apply guard_ret in H2 as (_ & ->).
  apply bind_ret_inv in H as (d1 & w3 & H3 & H).
  apply bind_ret_inv in H as ([] & w4 & H4 & H).
  apply guard_ret in H4 as (Hd1 & ->).
  apply negb_false_iff, bytes_eqb_spec in Hd1. subst d1.
  apply bind_ret_inv in H as ([] & w5 & H5 & H).
  apply send_message_ret in H5 as (x5 & Hx5 & ->).
  apply (encode_with_prefix (b "D ")) in Hx5 as (nick_b & Hn & ->);
    [|reflexivity].
  apply bind_ret_inv in H as (d2 & w6 & H6 & H).
  apply bind_ret_inv in H as ([] & w7 & H7 & H).
  unfold check_token_reply in H7. apply try_send_error_ret in H7.
  apply bind_ret_inv in H7 as ([begin tok] & w8 & H8 & H7).
  unfold lift, bsplit in H8.
  destruct (split Byte.eqb " "%byte None d2)
    as [|x [|y [|z t]]] eqn:S; try discriminate H8.
  injection H8 as -> -> <-.
  destruct (bytes_eqb begin (b "E"));
    [now apply send_error_no_ret in H7|].
  destruct (bytes_eqb begin (b "T")) eqn:Hb; cbn [negb orb] in H7;
    [|discriminate].
  destruct (bytes_eqb tok token) eqn:Ht; cbn [negb] in H7; [|discriminate].
  apply bytes_eqb_spec in Hb, Ht. subst begin tok.
  injection H7 as <-.
  apply (split_two_inv Byte.eqb byte_eqb_spec) in S. subst d2.
  apply bind_ret_inv in H as ([] & w9 & H9 & H).
  apply send_message_ret in H9 as (x9 & Hx9 & ->).
  apply (encode_with_prefix (b "D ")) in Hx9 as (message_b & Hm & ->);
    [|reflexivity].
  apply bind_ret_inv in H as (d3 & w10 & H10 & H).
  apply bind_ret_inv in H as ([] & w11 & H11 & H).
  injection H as <- <-.
  exists nick_b, message_b, w3, w6, w10.
  do 5 (split; [assumption|]). now rewrite H11.
Qed.

Lemma run_transfer_chain (e : env) (message nick dst_address : str)
      (token dtoken : bytes) (w w' : world) :
  run_transfer e message nick dst_address token w = (Ret dtoken, w') ->
  exists nick_b message_b w2 w4 w6,
    encode nick = Some nick_b
    /\ encode message = Some message_b
    /\ inner server_socket 1
         (log (Sent control_channel
                 (netstring_of_bytes (b "C " ++ decimal (dport e)))) w)
       = (Ret (b "T GRNVS V:1.0"), w2)
    /\ inner server_socket 1
         (log (Sent server_socket (netstring_of_bytes (b "D " ++ nick_b)))
            w2)
       = (Ret (b "T " ++ token), w4)
    /\ inner server_socket 1
         (log (Sent server_socket
                 (netstring_of_bytes (b "D " ++ message_b))) w4)
       = (Ret (b "T " ++ dtoken), w6)
    /\ w' = snd (close data_channel (snd (close server_socket w6))).
Proof.
  unfold run_transfer. intros H.
  apply with_socket_ret in H as (w1 & H & ->).
  apply bind_ret_inv in H as ([] & w2 & H2 & H).
  apply send_message_ret in H2 as (x2 & Hx2 & ->).
  unfold str_of_int in Hx2.
  apply (encode_with_prefix (b "C ")) in Hx2 as (port_b & Hp & ->);
    [|reflexivity].
  change (map Byte.to_N (decimal (dport e))) with (str_of_int (dport e))
    in Hp.
  rewrite encode_str_of_int in Hp. injection Hp as <-.
  apply bind_ret_inv in H as (dtoken_data & w3 & H3 & H).
  apply build_data_channel_chain in H3
    as (nick_b & message_b & wa & wb & wc & Hn & Hm & Ha & Hb & Hc & ->).
  apply try_send_error_ret in H.
  apply bind_ret_inv in H as ([begin tok] & w4 & H4 & H).
  unfold lift, bsplit in H4.
  destruct (split Byte.eqb " "%byte (Some 1%nat) dtoken_data)
    as [|x [|y [|z t]]] eqn:S; try discriminate H4.
  injection H4 as -> -> <-.
  destruct (bytes_eqb begin (b "E"));
    [now apply send_error_no_ret in H|].
  destruct (bytes_eqb begin (b "T")) eqn:Hbt; [|discriminate].
  apply bytes_eqb_spec in Hbt. subst begin. injection H as <- <-.
  apply split_once_inv in S. subst dtoken_data.
  exists nick_b, message_b, wa, wb, wc. auto 10.
Qed.

Section Confirmation.
Variable unicode_decimal : codepoint -> option N.
Variable unicode_space : codepoint -> bool.

Lemma receive_text_ret (w w' : world) (text : str) :
  receive_text w = (Ret text, w') ->
  exists data,
    inner control_channel 0 w = (Ret data, w') /\ decode data = Some text.
Proof.
  unfold receive_text, receive_message.
  destruct (inner control_channel 0 w) as [[data|e0|] w1].
  - destruct (decode data) as [t|] eqn:E.
    + intros H. injection H as <- <-. eauto.
    + intros H. now apply send_error_no_ret in H.
  - destruct e0; discriminate.
  - discriminate.
Qed.

Lemma run_confirmation_ret (message : str) (dtoken : bytes)
      (w w' : world) :
  run_confirmation unicode_decimal unicode_space message dtoken w
  = (Ret tt, w') ->
  exists message_b,
    encode message = Some message_b
    /\ 1 <= len message_b
    /\ trace w'
       = trace w
           ++ [Sent control_channel (netstring_of_bytes (b "C " ++ dtoken))]
    /\ closed (control_state w') = false.
Proof.
  unfold run_confirmation, receive_message. intros H.
  apply bind_ret_inv in H as (text & w1 & H1 & H).
  apply receive_text_ret in H1 as (data & H1 & _).
  apply inner_ret_inv in H1 as (_ & Ht1 & Hc1).
  apply bind_ret_inv in H as (msglen & w2 & H2 & H).
  apply parse_msglen_ret in H2 as (-> & field & _ & Hint).
  apply string_to_int_shape in Hint as (Hpos & _).
  apply bind_ret_inv in H as (message_b & w3 & H3 & H).
  unfold lift in H3. destruct (encode message) as [x|]; [|discriminate].
  injection H3 as <- <-.
  apply bind_ret_inv in H as ([] & w4 & H4 & H).
  apply guard_ret in H4 as (Hlen & ->).
  apply negb_false_iff, Z.eqb_eq in Hlen.
  apply bind_ret_inv in H as ([] & w5 & H5 & H).
  unfold sendall in H5.
  destruct (closed (state_of control_channel w1)
            || broken (state_of control_channel w1)); [discriminate|].
  injection H5 as <-.
  apply bind_ret_inv in H as (ack & w6 & H6 & H).
  apply inner_ret_inv in H6 as (Ho6 & Ht6 & Hc6).
  destruct (negb (bytes_eqb ack (b "S ACK")));
    [now apply send_error_no_ret in H|].
  injection H as <-.
  exists x. split; [reflexivity|]. split; [lia|]. split.
  - rewrite Ht6. simpl. now rewrite Ht1.
  - change (closed (state_of control_channel w6) = false).
    rewrite Hc6. exact Ho6.
Qed.

Lemma run_confirmation_chain (message : str) (dtoken : bytes)
      (w w' : world) :
  run_confirmation unicode_decimal unicode_space message dtoken w
  = (Ret tt, w') ->
  exists message_b data field w1,
    encode message = Some message_b
    /\ inner control_channel 0 w = (Ret data, w1)
    /\ decode data = Some (u "S " ++ field)
    /\ string_to_int unicode_decimal unicode_space field
       = Ret (Some (len message_b))
    /\ inner control_channel 0
         (log (Sent control_channel (netstring_of_bytes (b "C " ++ dtoken)))
            w1)
       = (Ret (b "S ACK"), w').
Proof.
  unfold run_confirmation, receive_message. intros H.
  apply bind_ret_inv in H as (text & w1 & H1 & H).
  apply receive_text_ret in H1 as (data & H1 & Hdec).
  apply bind_ret_inv in H as (msglen & w2 & H2 & H).
  assert (Hparse : fst (parse_msglen unicode_decimal unicode_space text w1)
                   = Ret msglen) by now rewrite H2.
  apply parse_msglen_ret in H2 as (-> & _).
  apply parse_msglen_accepts in Hparse as (field & -> & Hint).
  apply bind_ret_inv in H as (message_b & w3 & H3 & H).
  unfold lift in H3. destruct (encode message) as [x|]; [|discriminate].
  injection H3 as <- <-.
  apply bind_ret_inv in H as ([] & w4 & H4 & H).
  apply guard_ret in H4 as (Hlen & ->).
  apply negb_false_iff, Z.eqb_eq in Hlen. subst msglen.
  apply bind_ret_inv in H as ([] & w5 & H5 & H).
  unfold sendall in H5.
  destruct (closed (state_of control_channel w1)
            || broken (state_of control_channel w1)); [discriminate|].
  injection H5 as <-.
  apply bind_ret_inv in H as (ack & w6 & H6 & H).
  destruct (bytes_eqb ack (b "S ACK")) eqn:Hack; cbn [negb] in H;
    [|now apply send_error_no_ret in H].
  apply bytes_eqb_spec in Hack. subst ack. injection H as <-.
  exists x, data, field, w1. auto 10.
Qed.

Lemma run_ret_phases (e : env) (message nick dst_address : str)
      (w w' : world) :
  run unicode_decimal unicode_space e message nick dst_address w
  = (Ret tt, w') ->
  connect_ok e = true
  /\ exists token dtoken w1 w2 w3,
      run_handshake nick w = (Ret token, w1)
      /\ run_transfer e message nick dst_address token w1 = (Ret dtoken, w2)
      /\ run_confirmation unicode_decimal unicode_space message dtoken w2
         = (Ret tt, w3)
      /\ w' = snd (close control_channel w3).
Proof.
  unfold run. intros H. apply with_socket_ret in H as (w3 & H & ->).
  apply bind_ret_inv in H as ([] & w0 & H0 & H).
  unfold connect in H0. destruct (connect_ok e); [|discriminate].
  injection H0 as <-. split; [reflexivity|].
  apply bind_ret_inv in H as (token & w1 & H1 & H).
  apply bind_ret_inv in H as (dtoken & w2 & H2 & H).
  exists token, dtoken, w1, w2, w3. auto.
Qed.

(** X11: A session that [run] completes: the server was reached and it was the
    expected host that called back. Every value of the session is what the
    server sent: the server answered the greeting with [S GRNVS V:1.0] and
    the nick with [S <token>] on the control channel; on the data channel
    it sent [T GRNVS V:1.0], answered the nick with [T <token>] for that
    same token and the message with [T <dtoken>]; back on the control
    channel it sent [S <msglen>] with a [msglen] that [string_to_int] reads
    as the byte length of the message, and answered [C <dtoken>], for that
    same data token, with [S ACK]. The client has printed nothing and has
    sent and closed exactly this, in this order: the greeting, the nick and
    the port on the control channel, the nick and the message on the data
    channel, which it then closed together with the listener, and at last
    the data token on the control channel, which it closed. The message
    was not empty. *)
Theorem successful_session (e : env) (message nick dst_address : str)
        (w w' : world) :
  closed (listener_state w) = false ->
  run unicode_decimal unicode_space e message nick dst_address w
  = (Ret tt, w') ->
  connect_ok e = true
  /\ peer e = Some dst_address
  /\ exists nick_b message_b token dtoken data field
            w2 w4 w6 w8 w10 w12 w14,
      encode nick = Some nick_b
      /\ encode message = Some message_b
      /\ message_b <> []
      /\ inner control_channel 0
           (log (Sent control_channel
                   (netstring_of_bytes (b "C GRNVS V:1.0"))) w)
         = (Ret (b "S GRNVS V:1.0"), w2)
      /\ inner control_channel 0
           (log (Sent control_channel
                   (netstring_of_bytes (b "C " ++ nick_b))) w2)
         = (Ret (b "S " ++ token), w4)
      /\ inner server_socket 1
           (log (Sent control_channel
                   (netstring_of_bytes (b "C " ++ decimal (dport e)))) w4)
         = (Ret (b "T GRNVS V:1.0"), w6)
      /\ inner server_socket 1
           (log (Sent server_socket
                   (netstring_of_bytes (b "D " ++ nick_b))) w6)
         = (Ret (b "T " ++ token), w8)
      /\ inner server_socket 1
           (log (Sent server_socket
                   (netstring_of_bytes (b "D " ++ message_b))) w8)
         = (Ret (b "T " ++ dtoken), w10)
      /\ inner control_channel 0
           (snd (close data_channel (snd (close server_socket w10))))
         = (Ret data, w12)
      /\ decode data = Some (u "S " ++ field)
      /\ string_to_int unicode_decimal unicode_space field
         = Ret (Some (len message_b))
      /\ inner control_channel 0
           (log (Sent control_channel
                   (netstring_of_bytes (b "C " ++ dtoken))) w12)
         = (Ret (b "S ACK"), w14)
      /\ w' = snd (close control_channel w14)
      /\ trace w'
         = trace w
             ++ [Sent control_channel
                   (netstring_of_bytes (b "C GRNVS V:1.0"));
                 Sent control_channel
                   (netstring_of_bytes (b "C " ++ nick_b));
                 Sent control_channel
                   (netstring_of_bytes (b "C " ++ decimal (dport e)));
                 Sent server_socket (netstring_of_bytes (b "D " ++ nick_b));
                 Sent server_socket
                   (netstring_of_bytes (b "D " ++ message_b));
                 Closed server_socket;
                 Closed data_channel;
                 Sent control_channel
                   (netstring_of_bytes (b "C " ++ dtoken));
                 Closed control_channel].
Proof.
  intros Hl H.
  apply run_ret_phases in H
    as (Hconn & token & dtoken & w1 & w2 & w3 & H1 & H2 & H3 & ->).
  pose proof (run_handshake_chain _ _ _ _ H1)
    as (nick_c & wa & Hnc & Ha1 & Ha2).
  pose proof (run_transfer_chain _ _ _ _ _ _ _ _ H2)
    as (nick_d & message_d & wb & wc & wd & Hnd & Hmd & Hb1 & Hb2 & Hb3
        & Hw2).
  pose proof (run_confirmation_chain _ _ _ _ H3)
    as (message_e & data & field & we & Hme & Hc1 & Hdec & Hint & Hc2).
  apply run_handshake_ret in H1 as (nick_b & Hn & Ht1 & _ & Hc1').
  apply run_transfer_ret in H2
    as (Hpeer & nick_b' & message_b & Hn' & Hm & Ht2 & _);
    [|change (closed (state_of data_channel w1) = false); now rewrite Hc1'].
  apply run_confirmation_ret in H3 as (message_b' & Hm' & Hpos & Ht3 & Ho3).
  rewrite Hn in Hn', Hnc, Hnd.
  injection Hn' as <-. injection Hnc as <-. injection Hnd as <-.
  rewrite Hm in Hm', Hmd, Hme.
  injection Hm' as <-. injection Hmd as <-. injection Hme as <-.
  do 2 (split; [assumption|]).
  exists nick_b, message_b, token, dtoken, data, field,
    wa, w1, wb, wc, wd, we, w3.
  do 2 (split; [assumption|]). split.
  { intros ->. unfold len in Hpos. simpl in Hpos. lia. }
  do 5 (split; [assumption|]). split; [now rewrite <- Hw2|].
  do 3 (split; [assumption|]). split; [reflexivity|].
  unfold close. change (state_of control_channel w3) with (control_state w3).
  rewrite Ho3. simpl. rewrite Ht3, Ht2, Ht1.
  now rewrite <- !app_assoc.
Qed.

(** X12: An empty message is never delivered: whatever the server answers,
    [run] does not complete for it, because the length the server has to
    confirm would be 0, which [string_to_int] never yields. *)
Theorem empty_message_never_succeeds (e : env) (nick dst_address : str)
        (w : world) :
  fst (run unicode_decimal unicode_space e [] nick dst_address w) <> Ret tt.
Proof.
  destruct (run unicode_decimal unicode_space e [] nick dst_address w)
    as [r w'] eqn:H.
  cbn [fst]. intros ->.
  apply run_ret_phases in H as (_ & token & dtoken & w1 & w2 & w3 & _ & _
                                & H3 & _).
  apply run_confirmation_ret in H3 as (message_b & Hm & Hpos & _).
  injection Hm as <-. unfold len in Hpos. simpl in Hpos. lia.
Qed.

End Confirmation.

Lemma successful_session_witness :
  connect_ok environment = true
  /\ peer environment = Some server_address
  /\ exists nick_b message_b token dtoken data field
            w2 w4 w6 w8 w10 w12 w14,
      encode (u "alice") = Some nick_b
      /\ encode (u "hello") = Some message_b
      /\ message_b <> []
      /\ inner control_channel 0
           (log (Sent control_channel
                   (netstring_of_bytes (b "C GRNVS V:1.0")))
              (start (connected (control_script (b "3:S 5,")))
                     (connected server_script)))
         = (Ret (b "S GRNVS V:1.0"), w2)
      /\ inner control_channel 0
           (log (Sent control_channel
                   (netstring_of_bytes (b "C " ++ nick_b))) w2)
         = (Ret (b "S " ++ token), w4)
      /\ inner server_socket 1
           (log (Sent control_channel
                   (netstring_of_bytes
                      (b "C " ++ decimal (dport environment)))) w4)
         = (Ret (b "T GRNVS V:1.0"), w6)
      /\ inner server_socket 1
           (log (Sent server_socket
                   (netstring_of_bytes (b "D " ++ nick_b))) w6)
         = (Ret (b "T " ++ token), w8)
      /\ inner server_socket 1
           (log (Sent server_socket
                   (netstring_of_bytes (b "D " ++ message_b))) w8)
         = (Ret (b "T " ++ dtoken), w10)
      /\ inner control_channel 0
           (snd (close data_channel (snd (close server_socket w10))))
         = (Ret data, w12)
      /\ decode data = Some (u "S " ++ field)
      /\ string_to_int sample_decimal sample_space field
         = Ret (Some (len message_b))
      /\ inner control_channel 0
           (log (Sent control_channel
                   (netstring_of_bytes (b "C " ++ dtoken))) w12)
         = (Ret (b "S ACK"), w14)
      /\ snd (run sample_decimal sample_space environment
                (u "hello") (u "alice") server_address
                (start (connected (control_script (b "3:S 5,")))
                       (connected server_script)))
         = snd (close control_channel w14)
      /\ trace (snd (run sample_decimal sample_space environment
                       (u "hello") (u "alice") server_address
                       (start (connected (control_script (b "3:S 5,")))
                              (connected server_script))))
         = trace (start (connected (control_script (b "3:S 5,")))
                        (connected server_script))
             ++ [Sent control_channel
                   (netstring_of_bytes (b "C GRNVS V:1.0"));
                 Sent control_channel
                   (netstring_of_bytes (b "C " ++ nick_b));
                 Sent control_channel
                   (netstring_of_bytes
                      (b "C " ++ decimal (dport environment)));
                 Sent server_socket (netstring_of_bytes (b "D " ++ nick_b));
                 Sent server_socket
                   (netstring_of_bytes (b "D " ++ message_b));
                 Closed server_socket;
                 Closed data_channel;
                 Sent control_channel
                   (netstring_of_bytes (b "C " ++ dtoken));
                 Closed control_channel].
Proof.
  apply (successful_session sample_decimal sample_space environment
           (u "hello") (u "alice") server_address
           (start (connected (control_script (b "3:S 5,")))
                  (connected server_script))).
  - reflexivity.
  - vm_compute. reflexivity.
Defined.

(** ** Tokens, frames and sockets *)

(** X13: The control token is opaque: [run_handshake] yields a token exactly
    when the server answers the greeting with [S GRNVS V:1.0] and the nick
    with [S], a blank and that token, and the token is all the bytes after
    that first blank, further blanks included. *)
Theorem handshake_yields_the_token (nick : str) (token : bytes)
        (w w' : world) :
  run_handshake nick w = (Ret token, w')
  <-> exists w1 w2 w3,
      send_message (u "C GRNVS V:1.0") control_channel w = (Ret tt, w1)
      /\ inner control_channel 0 w1 = (Ret (b "S GRNVS V:1.0"), w2)
      /\ send_message (u "C " ++ nick) control_channel w2 = (Ret tt, w3)
      /\ inner control_channel 0 w3 = (Ret (b "S " ++ token), w').
Proof.
  unfold run_handshake, receive_message. split.
  - intros H.
    apply bind_ret_inv in H as ([] & w1 & H1 & H).
    apply bind_ret_inv in H as (r1 & w2 & H2 & H).
    apply bind_ret_inv in H as ([] & w2' & H3 & H).
    apply guard_ret in H3 as (Hr1 & ->).
    apply negb_false_iff, bytes_eqb_spec in Hr1. subst r1.
    apply bind_ret_inv in H as ([] & w3 & H4 & H).
    apply bind_ret_inv in H as (r2 & w4 & H5 & H).
    apply try_send_error_ret in H.
    apply bind_ret_inv in H as ([begin tok] & w5 & H6 & H).
    unfold lift, bsplit in H6.
    destruct (split Byte.eqb " "%byte (Some 1%nat) r2)
      as [|x [|y [|z t]]] eqn:S; try discriminate H6.
    injection H6 as -> -> <-.
    destruct (bytes_eqb begin (b "E"));
      [now apply send_error_no_ret in H|].
    destruct (bytes_eqb begin (b "S")) eqn:Hb; [|discriminate].
    apply bytes_eqb_spec in Hb. subst begin.
    injection H as <- <-.
    apply split_once_inv in S. subst r2.
    exists w1, w2, w3. auto.
  - intros (w1 & w2 & w3 & H1 & H2 & H3 & H4).
    unfold bind. rewrite H1, H2. cbn [negb].
    change (bytes_eqb (b "S GRNVS V:1.0") (b "S GRNVS V:1.0")) with true.
    cbn [negb ret]. rewrite H3, H4.
    unfold try_bare, lift, bsplit.
    change (b "S " ++ token) with (b "S" ++ " "%byte :: token).
    rewrite (split_first Byte.eqb byte_eqb_spec)
      by (intros [H|[]]; discriminate H).
    reflexivity.
Qed.

(** X14: The frame that goes out for a text is the netstring of its UTF-8
    bytes, with the length counted in bytes; no frame is built only when
    the text cannot be encoded. *)
Theorem frame_of_text (text : str) :
  netstring_bytes_of text = option_map netstring_of_bytes (encode text).
Proof.
  destruct (encode text) as [x|] eqn:E.
  - now apply netstring_bytes_of_encode.
  - unfold netstring_bytes_of, string_to_netstring. now rewrite E.
Qed.

Lemma closed_after_close (s : socket) (w : world) :
  closed (state_of s (snd (close s w))) = true.
Proof.
  unfold close. destruct (closed (state_of s w)) eqn:E; cbn [snd].
  - exact E.
  - now destruct s.
Qed.

Section Sockets.
Variable unicode_decimal : codepoint -> option N.
Variable unicode_space : codepoint -> bool.

(** X15: Whenever [run] ends, by a return, by [sys.exit] or by any other
    exception, the control socket is closed. *)
Theorem run_closes_the_control_socket (e : env)
        (message nick dst_address : str) (w : world) :
  fst (run unicode_decimal unicode_space e message nick dst_address w)
  <> Hang ->
  closed (control_state
            (snd (run unicode_decimal unicode_space e message nick
                    dst_address w)))
  = true.
Proof.
  unfold run, with_socket.
  match goal with
  | |- context [match ?body with _ => _ end] =>
      destruct body as [[x|e0|] w1]
  end; cbn [fst snd]; intros H;
    try apply (closed_after_close control_channel); congruence.
Qed.

End Sockets.

Lemma run_closes_the_control_socket_witness :
  closed (control_state
            (snd (run sample_decimal sample_space environment
                    (u "hello") (u "alice") server_address
                    (start (connected []) (connected [])))))
  = true.
Proof.
  apply (run_closes_the_control_socket sample_decimal sample_space).
  discriminate.
Defined.

(** X16: For a control token that holds no blank, the check of the reply on
    the data channel (lines 138-145) passes for the reply [T <token>] and
    for no other message. *)
Theorem token_check_without_blank (data token : bytes) (w : world) :
  ~ In " "%byte token ->
  fst (check_token_reply data token w) = Ret tt <-> data = b "T " ++ token.
Proof. apply token_reply_without_space. Qed.

Lemma token_check_without_blank_witness :
  fst (check_token_reply (b "T tok123") (b "tok123")
         (start (connected []) (connected [])))
  = Ret tt
  <-> b "T tok123" = b "T " ++ b "tok123".
Proof.
  apply (token_check_without_blank (b "T tok123") (b "tok123")
           (start (connected []) (connected []))).
  intros H. repeat (destruct H as [H|H]; [discriminate H|]). exact H.
Defined.

(** X17: When the host that calls back is not the expected one,
    [build_data_channel] does not return and does not read from the new
    connection, and no [D] frame, with the nick or with the message, goes
    out on it. *)
Theorem foreign_caller_gets_no_data (e : env)
        (message nick dst_address address : str) (token : bytes)
        (w : world) :
  peer e = Some address ->
  address <> dst_address ->
  let '(r, w') :=
    build_data_channel e message nick dst_address token w in
  (forall data, r <> Ret data)
  /\ inbox (server_state w') = inbox (server_state w)
  /\ exists events,
      trace w' = trace w ++ events
      /\ forall x,
          ~ In (Sent server_socket (netstring_of_bytes (b "D " ++ x)))
              events.
Proof.
  intros Hpeer Hne. unfold build_data_channel, bind, accept.
  rewrite Hpeer.
  destruct (str_eqb address dst_address) eqn:E;
    [apply str_eqb_spec in E; contradiction|].
  cbn [negb].
  set (error := u "invalid server address: " ++ address
                  ++ u ", expected: " ++ dst_address).
  destruct (encode (u "E " ++ error)) as [m|] eqn:Henc.
  - rewrite (send_error_eq error server_socket w m Henc).
    apply (encode_with_prefix (b "E ")) in Henc as (y & _ & ->);
      [|reflexivity].
    destruct (closed (state_of server_socket w)
              || broken (state_of server_socket w)).
    + split; [discriminate|]. split; [reflexivity|].
      exists []. rewrite app_nil_r. split; [reflexivity|]. intros x [].
    + split; [discriminate|]. split; [reflexivity|].
      eexists. split; [simpl; rewrite <- !app_assoc; reflexivity|].
      intros x [H|[H|[H|[]]]]; try discriminate H.
      injection H as H. apply netstring_of_bytes_inj in H;
        discriminate H || (try discriminate).
  - unfold send_error, bind, lift, netstring_bytes_of, string_to_netstring.
    rewrite Henc. split; [discriminate|]. split; [reflexivity|].
    exists []. rewrite app_nil_r. split; [reflexivity|]. intros x [].
Qed.

Lemma foreign_caller_gets_no_data_witness :
  let '(r, w') :=
    build_data_channel
      {| connect_ok := true; dport := 40000; peer := Some (u "::2") |}
      (u "hello") (u "alice") server_address (b "tok123")
      (start (connected []) (connected server_script)) in
  (forall data, r <> Ret data)
  /\ inbox (server_state w')
     = inbox (server_state (start (connected []) (connected server_script)))
  /\ exists events,
      trace w'
      = trace (start (connected []) (connected server_script)) ++ events
      /\ forall x,
          ~ In (Sent server_socket (netstring_of_bytes (b "D " ++ x)))
              events.
Proof.
  apply (foreign_caller_gets_no_data
           {| connect_ok := true; dport := 40000; peer := Some (u "::2") |}
           (u "hello") (u "alice") server_address (u "::2") (b "tok123")
           (start (connected []) (connected server_script)));
    [reflexivity | discriminate].
Defined.

End Laws.
